(** * MSESimilarityEvaluator: a shallow embedding and its specification

    Source: [sentence_transformers/evaluation/MSESimilarityEvaluator.py].

    The evaluator is a Python object built from three parallel lists
    (sentences1, sentences2, scores).  Calling it asks a model for two
    batches of embeddings, derives four per-pair similarity arrays, takes
    the mean squared error of each against the gold scores, optionally
    appends one CSV row, and returns one of the four MSE values.

    Conventions of the embedding:
    - Python floats and numpy floating arrays are real numbers ([R]) with
      exact arithmetic; packed and quantized embeddings are integers ([Z])
      with the 8-bit wrap-around of [astype(np.uint8)] written out.
    - [call] is [__call__] on arrays the library functions accept, with all
      four metrics in exact arithmetic; [call_checked] adds the 8-bit
      [np.dot] of the quantized modes and scikit-learn's input validation.
    - Exceptions are the [Raise] results of a small state-and-error monad
      whose state (the "world") holds the evaluator object, the file system
      and the logger output.
    - A CSV file is the list of the rows written to it. *)

From Stdlib Require Import ZArith Reals Lra Lia List String Ascii DecimalString.
From stdpp Require Import gmap strings list fin_maps.

Local Open Scope string_scope.

(** ** Python-level values *)

(** Modelled from the spec: the enumeration [SimilarityFunction] is imported
    from the package's [evaluation] module, which is not part of the source
    file; the spec lists its four members (the fifth selector value is
    Python's [None]). *)
Inductive SimilarityFunction : Type :=
  | COSINE
  | EUCLIDEAN
  | MANHATTAN
  | DOT_PRODUCT.

(** [main_similarity] is an untyped attribute: besides a member of the
    enumeration or [None] it can hold any other Python value, represented
    here by its [repr]. *)
Inductive selector : Type :=
  | Member (f : SimilarityFunction)
  | PyNone
  | Other (repr : string).

(** The [Literal] type of the [precision] argument. *)
Inductive Precision : Type :=
  | float32
  | int8
  | uint8
  | binary
  | ubinary.

Definition precision_str (p : Precision) : string :=
  match p with
  | float32 => "float32"
  | int8 => "int8"
  | uint8 => "uint8"
  | binary => "binary"
  | ubinary => "ubinary"
  end.

#[global] Instance SimilarityFunction_eq_dec : EqDecision SimilarityFunction.
Proof. solve_decision. Defined.

#[global] Instance Precision_eq_dec : EqDecision Precision.
Proof. solve_decision. Defined.

(** ** Exceptions and results *)

Inductive exn : Type :=
  | AssertionError
  | ValueError (msg : string).

Inductive Result (A : Type) : Type :=
  | Ok (a : A)
  | Raise (e : exn).

Arguments Ok {A} a.
Arguments Raise {A} e.

(** ** The evaluator object *)

Record Evaluator : Type := mkEvaluator {
  sentences1 : list string;
  sentences2 : list string;
  scores : list R;
  write_csv : bool;
  precision : option Precision;
  main_similarity : selector;
  name : string;
  batch_size : nat;
  show_progress_bar : bool;
  csv_file : string;
  csv_headers : list string
}.

(** Python truthiness of a string: [x if s else y]. *)
Definition truthy (s : string) : bool :=
  match s with
  | EmptyString => false
  | String _ _ => true
  end.

Definition name_suffix (nm : string) : string :=
  if truthy nm then "_" ++ nm else "".

Definition precision_suffix (p : option Precision) : string :=
  match p with
  | Some q => if truthy (precision_str q) then "_" ++ precision_str q else ""
  | None => ""
  end.

(** Lines 69-74. *)
Definition derive_csv_file (nm : string) (p : option Precision) : string :=
  "MSE_similarity_evaluation" ++ name_suffix nm ++ precision_suffix p ++ "_results.csv".

Definition default_csv_headers : list string :=
  ["epoch"; "steps"; "MSE_cosine"; "MSE_euclidean"; "MSE_manhattan"; "MSE_dot"].

(** [__init__], lines 26-82.  [show_progress_bar] is declared [bool] with
    default [False], so the [is None] branch of lines 63-66 is not taken. *)
Definition init (s1 s2 : list string) (sc : list R) (bs : nat)
    (sel : selector) (nm : string) (spb wcsv : bool)
    (p : option Precision) : Result Evaluator :=
  if negb (Nat.eqb (length s1) (length s2)) then Raise AssertionError
  else if negb (Nat.eqb (length s1) (length sc)) then Raise AssertionError
  else Ok {| sentences1 := s1; sentences2 := s2; scores := sc;
             write_csv := wcsv; precision := p; main_similarity := sel;
             name := nm; batch_size := bs; show_progress_bar := spb;
             csv_file := derive_csv_file nm p;
             csv_headers := default_csv_headers |}.

(** ** The alternate constructor (lines 84-94) *)

(** Modelled from the spec: the class [InputExample] is imported from the
    package root, which is not part of the source file; the spec describes
    an example as a sequence of texts with a scalar label.  The texts are a
    Python list, so [texts[0]] and [texts[1]] can be out of range. *)
Record InputExample : Type := mkInputExample {
  texts : list string;
  label : R
}.

(** The keyword arguments forwarded to [__init__], with the defaults of its
    signature. *)
Record InitKwargs : Type := mkInitKwargs {
  kw_batch_size : nat;
  kw_main_similarity : selector;
  kw_name : string;
  kw_show_progress_bar : bool;
  kw_write_csv : bool;
  kw_precision : option Precision
}.

Definition default_kwargs : InitKwargs :=
  {| kw_batch_size := 16; kw_main_similarity := PyNone; kw_name := "";
     kw_show_progress_bar := false; kw_write_csv := true; kw_precision := None |}.

(** What [from_input_examples] can end in: the evaluator, an exception of the
    constructor, or the [IndexError] of a list subscript. *)
Inductive Outcome (A : Type) : Type :=
  | Returned (a : A)
  | Raised (e : exn)
  | RaisedIndexError.

Arguments Returned {A} a.
Arguments Raised {A} e.
Arguments RaisedIndexError {A}.

(** One turn of the loop of lines 90-93; [None] is the [IndexError]. *)
Definition append_example (acc : list string * list string * list R)
    (example : InputExample) : option (list string * list string * list R) :=
  let '(sentences1, sentences2, scores) := acc in
  match texts example !! 0%nat with
  | None => None
  | Some t0 =>
      let sentences1 := (sentences1 ++ [t0])%list in
      match texts example !! 1%nat with
      | None => None
      | Some t1 =>
          let sentences2 := (sentences2 ++ [t1])%list in
          Some (sentences1, sentences2, (scores ++ [label example])%list)
      end
  end.

Fixpoint collect_examples (examples : list InputExample)
    (acc : list string * list string * list R)
    : option (list string * list string * list R) :=
  match examples with
  | [] => Some acc
  | example :: rest =>
      match append_example acc example with
      | Some acc' => collect_examples rest acc'
      | None => None
      end
  end.

Definition from_input_examples (examples : list InputExample) (kwargs : InitKwargs)
    : Outcome Evaluator :=
  match collect_examples examples ([], [], []) with
  | None => RaisedIndexError
  | Some (sentences1, sentences2, scores) =>
      match init sentences1 sentences2 scores (kw_batch_size kwargs)
                 (kw_main_similarity kwargs) (kw_name kwargs)
                 (kw_show_progress_bar kwargs) (kw_write_csv kwargs)
                 (kw_precision kwargs) with
      | Ok ev => Returned ev
      | Raise e => Raised e
      end
  end.

(** ** Arrays and the numpy / scikit-learn operations used by [__call__]

    These are library functions; each definition follows the library's
    documented meaning on arrays of matching shape.  On lists of different
    lengths [zip_with] stops at the shorter one, where numpy would refuse
    to broadcast: the model collaborator's contract (two arrays of shape
    (N, D)) keeps the call away from that case. *)

Abbreviation vector := (list R).
Abbreviation matrix := (list (list R)).

Definition Rsum (a : vector) : R := foldr Rplus 0%R a.

(** [a - b], [a ** 2], [-a] and [1 - a] on one-dimensional arrays. *)
Definition np_sub (a b : vector) : vector := zip_with Rminus a b.
Definition np_square (a : vector) : vector := map (fun x => (x ^ 2)%R) a.
Definition np_neg (a : vector) : vector := map Ropp a.
Definition np_rsub1 (a : vector) : vector := map (fun x => (1 - x)%R) a.

(** [np.mean]: the sum divided by the number of items. *)
Definition np_mean (a : vector) : R := (Rsum a / INR (length a))%R.

(** [np.dot] of two one-dimensional arrays. *)
Definition np_dot (x y : vector) : R := Rsum (zip_with Rmult x y).

(** [sklearn.preprocessing.normalize]: a row is divided by its L2 norm; a
    row of norm zero is left as it is. *)
Definition l2_norm (x : vector) : R := sqrt (Rsum (np_square x)).

Definition normalize_row (x : vector) : vector :=
  let n := l2_norm x in
  let n' := if Req_dec_T n 0 then 1%R else n in
  map (fun v => (v / n')%R) x.

(** The per-row distances of [sklearn.metrics.pairwise]. *)
Definition cosine_distance (x y : vector) : R :=
  (/ 2 * Rsum (np_square (np_sub (normalize_row x) (normalize_row y))))%R.

Definition euclidean_distance (x y : vector) : R :=
  sqrt (Rsum (np_square (np_sub x y))).

Definition manhattan_distance (x y : vector) : R :=
  Rsum (map Rabs (np_sub x y)).

Definition paired_cosine_distances (X Y : matrix) : vector :=
  zip_with cosine_distance X Y.

Definition paired_euclidean_distances (X Y : matrix) : vector :=
  zip_with euclidean_distance X Y.

Definition paired_manhattan_distances (X Y : matrix) : vector :=
  zip_with manhattan_distance X Y.

(** *** Packed embeddings *)

(** [astype(np.uint8)] on an integer: the value modulo 2^8. *)
Definition astype_uint8 (z : Z) : Z := (z mod 256)%Z.

(** [(a + 128).astype(np.uint8)], elementwise. *)
Definition add128_uint8 (a : list (list Z)) : list (list Z) :=
  map (map (fun b => astype_uint8 (b + 128))) a.

(** The eight bits of a byte, most significant first ([bitorder='big']). *)
Definition byte_bits (b : Z) : list Z :=
  map (fun k => if Z.testbit b k then 1%Z else 0%Z) [7; 6; 5; 4; 3; 2; 1; 0]%Z.

(** [np.unpackbits(a, axis=1)]. *)
Definition np_unpackbits (a : list (list Z)) : list (list Z) :=
  map (fun row => concat (map byte_bits row)) a.

(** ** The model collaborator

    [model.encode] returns a floating array for [float32] and an integer
    array for the four quantized modes. *)
Definition elem (p : Precision) : Type :=
  match p with
  | float32 => R
  | _ => Z
  end.

Definition ndarray (p : Precision) : Type := list (list (elem p)).

(** [encode sentences batch_size show_progress_bar precision
    normalize_embeddings]; [convert_to_numpy] is [True] at every call site. *)
Record Model : Type := mkModel {
  encode : list string -> nat -> bool -> forall p : Precision, bool -> ndarray p
}.

(** Line 124-126: [if self.precision == "binary"]. *)
Definition correct_binary (p : Precision) : ndarray p -> ndarray p :=
  match p return ndarray p -> ndarray p with
  | binary => add128_uint8
  | _ => fun a => a
  end.

(** Line 127-129: [if self.precision in ("ubinary", "binary")]. *)
Definition unpack_packed (p : Precision) : ndarray p -> ndarray p :=
  match p return ndarray p -> ndarray p with
  | ubinary | binary => np_unpackbits
  | _ => fun a => a
  end.

(** The conversion to floating point that the scikit-learn functions apply
    to an integer array.  In this exact-arithmetic layer it is applied once,
    before all four metrics; [np.dot], which keeps the 8-bit dtype of a
    quantized array, is written out in [np_dot_rows] and [call_checked]
    below. *)
Definition as_float (p : Precision) : ndarray p -> matrix :=
  match p return ndarray p -> matrix with
  | float32 => fun a => a
  | _ => map (map IZR)
  end.

(** Lines 106-142: the arrays the metrics are computed from.  Without a
    precision mode the call passes neither [precision] nor
    [normalize_embeddings], and [encode] runs with the defaults of its
    signature ([float32], no normalization), which is declared outside the
    source file. *)
Definition embed (model : Model) (self : Evaluator) (sentences : list string) : matrix :=
  match precision self with
  | Some p =>
      let embeddings :=
        encode model sentences (batch_size self) (show_progress_bar self)
               p (truthy (precision_str p)) in
      let embeddings := correct_binary p embeddings in
      let embeddings := unpack_packed p embeddings in
      as_float p embeddings
  | None =>
      encode model sentences (batch_size self) (show_progress_bar self)
             float32 false
  end.

(** ** The four metric arrays and their MSE (lines 144-154) *)

Record Metrics : Type := mkMetrics {
  cosine_scores : vector;
  manhattan_distances : vector;
  euclidean_distances : vector;
  dot_products : vector
}.

Definition metrics_of (embeddings1 embeddings2 : matrix) : Metrics :=
  {| cosine_scores := np_rsub1 (paired_cosine_distances embeddings1 embeddings2);
     manhattan_distances := np_neg (paired_manhattan_distances embeddings1 embeddings2);
     euclidean_distances := np_neg (paired_euclidean_distances embeddings1 embeddings2);
     dot_products := zip_with np_dot embeddings1 embeddings2 |}.

(** [np.mean((a - labels) ** 2)]. *)
Definition mse (a labels : vector) : R := np_mean (np_square (np_sub a labels)).

Record MSEs : Type := mkMSEs {
  eval_mse_cosine : R;
  eval_mse_manhattan : R;
  eval_mse_euclidean : R;
  eval_mse_dot : R
}.

Definition mses_of (m : Metrics) (labels : vector) : MSEs :=
  {| eval_mse_cosine := mse (cosine_scores m) labels;
     eval_mse_manhattan := mse (manhattan_distances m) labels;
     eval_mse_euclidean := mse (euclidean_distances m) labels;
     eval_mse_dot := mse (dot_products m) labels |}.

(** Python's [min(x, *rest)]: the first of the smallest arguments. *)
Definition py_min (x : R) (rest : list R) : R :=
  fold_left (fun m y => if Rlt_dec y m then y else m) rest x.

(** ** The world: evaluator object, file system, logger *)

(** A CSV cell is whatever value was handed to [writerow]. *)
Inductive cell : Type :=
  | CStr (s : string)
  | CInt (z : Z)
  | CFloat (r : R).

Definition csv_row : Type := list cell.

(** A call of [logger.info]: a finished message, or a format string with
    the float it is applied to. *)
Inductive log_record : Type :=
  | Info (msg : string)
  | InfoFormat (template : string) (value : R).

Record World : Type := mkWorld {
  this : Evaluator;
  files : gmap string (list csv_row);
  logged : list log_record
}.

(** State and exceptions: a raised exception keeps the state reached. *)
Definition M (A : Type) : Type := World -> Result A * World.

#[global] Instance M_ret : MRet M := fun A a w => (Ok a, w).

#[global] Instance M_bind : MBind M := fun A B k c w =>
  match c w with
  | (Ok a, w') => k a w'
  | (Raise e, w') => (Raise e, w')
  end.

Definition raise {A : Type} (e : exn) : M A := fun w => (Raise e, w).

Definition get_self : M Evaluator := fun w => (Ok (this w), w).

Definition logger_info (r : log_record) : M unit := fun w =>
  (Ok tt, {| this := this w; files := files w; logged := (logged w ++ [r])%list |}).

(** [os.path.isfile]. *)
Definition isfile (path : string) : M bool := fun w =>
  (Ok (bool_decide (is_Some (files w !! path))), w).

Inductive open_mode : Type := mode_a | mode_w.

(** [open(path, mode)]: mode "w" creates the file or empties it, mode "a"
    creates it when absent and otherwise leaves its content alone. *)
Definition open_ (path : string) (mode : open_mode) : M unit := fun w =>
  let content :=
    match mode, files w !! path with
    | mode_a, Some rows => rows
    | _, _ => []
    end in
  (Ok tt, {| this := this w; files := <[path := content]> (files w); logged := logged w |}).

(** [csv.writer(f).writerow(row)] on the file opened at [path]. *)
Definition writerow (path : string) (row : csv_row) : M unit := fun w =>
  (Ok tt, {| this := this w;
             files := <[path := (default [] (files w !! path) ++ [row])%list]> (files w);
             logged := logged w |}).

(** [os.path.join] (posixpath) on two components. *)
Fixpoint endswith_sep (s : string) : bool :=
  match s with
  | EmptyString => false
  | String c EmptyString => bool_decide (c = "/"%char)
  | String _ rest => endswith_sep rest
  end.

Definition startswith_sep (s : string) : bool :=
  match s with
  | String c _ => bool_decide (c = "/"%char)
  | EmptyString => false
  end.

Definition path_join (a b : string) : string :=
  if startswith_sep b then b
  else if negb (truthy a) || endswith_sep a then a ++ b
  else a ++ "/" ++ b.

(** [str] / ["{}".format] of a Python int. *)
Definition str_int (z : Z) : string := NilZero.string_of_int (Z.to_int z).

Definition tab : string := String (ascii_of_nat 9) EmptyString.

(** ** [__call__] (lines 96-201) *)

Definition data_row (epoch steps : Z) (e : MSEs) : csv_row :=
  [CInt epoch; CInt steps;
   CFloat (eval_mse_cosine e); CFloat (eval_mse_euclidean e);
   CFloat (eval_mse_manhattan e); CFloat (eval_mse_dot e)].

#[global] Instance selector_eq_dec : EqDecision selector.
Proof. solve_decision. Defined.

Definition evaluate_mses (model : Model) (self : Evaluator) : MSEs :=
  let embeddings1 := embed model self (sentences1 self) in
  let embeddings2 := embed model self (sentences2 self) in
  let labels := scores self in
  mses_of (metrics_of embeddings1 embeddings2) labels.

(** Lines 97-103. *)
Definition out_txt_of (epoch steps : Z) : string :=
  if negb (epoch =? -1)%Z then
    if (steps =? -1)%Z then " after epoch " ++ str_int epoch ++ ":"
    else " in epoch " ++ str_int epoch ++ " after " ++ str_int steps ++ " steps:"
  else ":".

Definition call (model : Model) (output_path : option string) (epoch steps : Z) : M R :=
  self ← get_self;
  let out_txt := out_txt_of epoch steps in
  logger_info (Info ("EmbeddingSimilarityEvaluator: Evaluating the model on "
                     ++ name self ++ " dataset" ++ out_txt));;
  let e := evaluate_mses model self in
  logger_info (InfoFormat ("Cosine-Similarity :" ++ tab ++ "MSE: {:.6f}") (eval_mse_cosine e));;
  logger_info (InfoFormat ("Manhattan-Distance:" ++ tab ++ "MSE: {:.6f}") (eval_mse_manhattan e));;
  logger_info (InfoFormat ("Euclidean-Distance:" ++ tab ++ "MSE: {:.6f}") (eval_mse_euclidean e));;
  logger_info (InfoFormat ("Dot-Product-Similarity:" ++ tab ++ "MSE: {:.6f}") (eval_mse_dot e));;
  match output_path with
  | Some dir =>
      if write_csv self then
        let csv_path := path_join dir (csv_file self) in
        output_file_exists ← isfile csv_path;
        open_ csv_path (if output_file_exists then mode_a else mode_w);;
        (if negb output_file_exists
         then writerow csv_path (map CStr (csv_headers self))
         else mret tt);;
        writerow csv_path (data_row epoch steps e)
      else mret tt
  | None => mret tt
  end;;
  if decide (main_similarity self = Member COSINE) then mret (eval_mse_cosine e)
  else if decide (main_similarity self = Member EUCLIDEAN) then mret (eval_mse_euclidean e)
  else if decide (main_similarity self = Member MANHATTAN) then mret (eval_mse_manhattan e)
  else if decide (main_similarity self = Member DOT_PRODUCT) then mret (eval_mse_dot e)
  else if decide (main_similarity self = PyNone) then
    mret (py_min (eval_mse_cosine e)
                 [eval_mse_manhattan e; eval_mse_euclidean e; eval_mse_dot e])
  else raise (ValueError "Unknown main_similarity value").

(** ** [__call__] with numpy's dtypes and scikit-learn's input validation

    [call] above is [__call__] in exact arithmetic on arrays that the
    library functions accept.  Two things lie below that abstraction and are
    written out here:
    - the array a model returns has a dtype.  The scikit-learn functions of
      lines 146-148 convert an integer array to floating point before they
      compute, but [np.dot] of line 149 multiplies and adds in the dtype of
      its arguments and stores the result in that dtype: for the 8-bit
      arrays of the quantized modes the dot product is reduced modulo 2^8;
    - every [paired_*_distances] function first validates its two arrays
      and raises [ValueError] when one has no rows or no columns or when
      their shapes differ.
    [call_checked] is [__call__] with both; [call_checked_float] shows that
    it agrees with [call] on floating-point arrays that pass validation. *)

Inductive array : Type :=
  | float_array (rows : list (list R))
  | int8_array (rows : list (list Z))
  | uint8_array (rows : list (list Z)).

(** The dtype of the array left by lines 124-129: [astype(np.uint8)] and
    [np.unpackbits] both give uint8. *)
Definition with_dtype (p : Precision) : ndarray p -> array :=
  match p return ndarray p -> array with
  | float32 => float_array
  | int8 => int8_array
  | uint8 | binary | ubinary => uint8_array
  end.

(** Lines 106-142, keeping the dtype. *)
Definition embeddings (model : Model) (self : Evaluator) (sentences : list string) : array :=
  match precision self with
  | Some p =>
      let embeddings :=
        encode model sentences (batch_size self) (show_progress_bar self)
               p (truthy (precision_str p)) in
      let embeddings := correct_binary p embeddings in
      let embeddings := unpack_packed p embeddings in
      with_dtype p embeddings
  | None =>
      float_array (encode model sentences (batch_size self) (show_progress_bar self)
                          float32 false)
  end.

(** The conversion to floating point inside the scikit-learn functions. *)
Definition astype_float (a : array) : matrix :=
  match a with
  | float_array rows => rows
  | int8_array rows | uint8_array rows => map (map IZR) rows
  end.

(** [shape[0]] and [shape[1]] of a two-dimensional array. *)
Definition n_samples (a : array) : nat :=
  match a with
  | float_array rows => length rows
  | int8_array rows | uint8_array rows => length rows
  end.

Definition n_features (a : array) : nat :=
  match a with
  | float_array rows => length (hd [] rows)
  | int8_array rows | uint8_array rows => length (hd [] rows)
  end.

(** scikit-learn's [check_paired_arrays], run by each of the three
    [paired_*_distances] functions before it computes. *)
Definition check_paired_arrays (X Y : array) : Result unit :=
  if Nat.eqb (n_samples X) 0 then
    Raise (ValueError "Found array with 0 sample(s) while a minimum of 1 is required by check_pairwise_arrays.")
  else if Nat.eqb (n_features X) 0 then
    Raise (ValueError "Found array with 0 feature(s) while a minimum of 1 is required by check_pairwise_arrays.")
  else if Nat.eqb (n_samples Y) 0 then
    Raise (ValueError "Found array with 0 sample(s) while a minimum of 1 is required by check_pairwise_arrays.")
  else if Nat.eqb (n_features Y) 0 then
    Raise (ValueError "Found array with 0 feature(s) while a minimum of 1 is required by check_pairwise_arrays.")
  else if negb (Nat.eqb (n_features X) (n_features Y)) then
    Raise (ValueError "Incompatible dimension for X and Y matrices")
  else if negb (Nat.eqb (n_samples X) (n_samples Y)) then
    Raise (ValueError "X and Y should be of same shape.")
  else Ok tt.

(** The sum of products over the integers, and the casts that store it. *)
Definition Z_dot (x y : list Z) : Z := foldr Z.add 0%Z (zip_with Z.mul x y).

Definition astype_int8 (z : Z) : Z := ((z + 128) mod 256 - 128)%Z.

Definition astype_int16 (z : Z) : Z := ((z + 32768) mod 65536 - 32768)%Z.

(** Line 149: [np.dot] row by row in the dtype of the two arrays (int8 with
    uint8 promotes to int16, an integer with a float to float); the
    subtraction of the labels then converts the result to floating point. *)
Definition np_dot_rows (embeddings1 embeddings2 : array) : vector :=
  match embeddings1, embeddings2 with
  | int8_array rows1, int8_array rows2 =>
      zip_with (fun x y => IZR (astype_int8 (Z_dot x y))) rows1 rows2
  | uint8_array rows1, uint8_array rows2 =>
      zip_with (fun x y => IZR (astype_uint8 (Z_dot x y))) rows1 rows2
  | int8_array rows1, uint8_array rows2 | uint8_array rows1, int8_array rows2 =>
      zip_with (fun x y => IZR (astype_int16 (Z_dot x y))) rows1 rows2
  | _, _ =>
      zip_with np_dot (astype_float embeddings1) (astype_float embeddings2)
  end.

(** Lines 146-149 on arrays with a dtype. *)
Definition metrics_of_arrays (embeddings1 embeddings2 : array) : Metrics :=
  {| cosine_scores :=
       np_rsub1 (paired_cosine_distances (astype_float embeddings1)
                                         (astype_float embeddings2));
     manhattan_distances :=
       np_neg (paired_manhattan_distances (astype_float embeddings1)
                                          (astype_float embeddings2));
     euclidean_distances :=
       np_neg (paired_euclidean_distances (astype_float embeddings1)
                                          (astype_float embeddings2));
     dot_products := np_dot_rows embeddings1 embeddings2 |}.

Definition call_checked (model : Model) (output_path : option string)
    (epoch steps : Z) : M R :=
  self ← get_self;
  let out_txt := out_txt_of epoch steps in
  logger_info (Info ("EmbeddingSimilarityEvaluator: Evaluating the model on "
                     ++ name self ++ " dataset" ++ out_txt));;
  let embeddings1 := embeddings model self (sentences1 self) in
  let embeddings2 := embeddings model self (sentences2 self) in
  let labels := scores self in
  match check_paired_arrays embeddings1 embeddings2 with
  | Raise err => raise err
  | Ok _ =>
      let e := mses_of (metrics_of_arrays embeddings1 embeddings2) labels in
      logger_info (InfoFormat ("Cosine-Similarity :" ++ tab ++ "MSE: {:.6f}") (eval_mse_cosine e));;
      logger_info (InfoFormat ("Manhattan-Distance:" ++ tab ++ "MSE: {:.6f}") (eval_mse_manhattan e));;
      logger_info (InfoFormat ("Euclidean-Distance:" ++ tab ++ "MSE: {:.6f}") (eval_mse_euclidean e));;
      logger_info (InfoFormat ("Dot-Product-Similarity:" ++ tab ++ "MSE: {:.6f}") (eval_mse_dot e));;
      match output_path with
      | Some dir =>
          if write_csv self then
            let csv_path := path_join dir (csv_file self) in
            output_file_exists ← isfile csv_path;
            open_ csv_path (if output_file_exists then mode_a else mode_w);;
            (if negb output_file_exists
             then writerow csv_path (map CStr (csv_headers self))
             else mret tt);;
            writerow csv_path (data_row epoch steps e)
          else mret tt
      | None => mret tt
      end;;
      if decide (main_similarity self = Member COSINE) then mret (eval_mse_cosine e)
      else if decide (main_similarity self = Member EUCLIDEAN) then mret (eval_mse_euclidean e)
      else if decide (main_similarity self = Member MANHATTAN) then mret (eval_mse_manhattan e)
      else if decide (main_similarity self = Member DOT_PRODUCT) then mret (eval_mse_dot e)
      else if decide (main_similarity self = PyNone) then
        mret (py_min (eval_mse_cosine e)
                     [eval_mse_manhattan e; eval_mse_euclidean e; eval_mse_dot e])
      else raise (ValueError "Unknown main_similarity value")
  end.

(** * Specification-side definitions *)

(** The file system after the persistence step of lines 169-186. *)
Definition persist (self : Evaluator) (output_path : option string)
    (row : csv_row) (fs : gmap string (list csv_row)) : gmap string (list csv_row) :=
  match output_path with
  | Some dir =>
      if write_csv self then
        let csv_path := path_join dir (csv_file self) in
        match fs !! csv_path with
        | Some rows => <[csv_path := (rows ++ [row])%list]> fs
        | None => <[csv_path := [map CStr (csv_headers self); row]]> fs
        end
      else fs
  | None => fs
  end.

(** The value the spec asks for, given the selector and the four MSEs. *)
Definition selected_score (sel : selector) (e : MSEs) : Result R :=
  match sel with
  | Member COSINE => Ok (eval_mse_cosine e)
  | Member EUCLIDEAN => Ok (eval_mse_euclidean e)
  | Member MANHATTAN => Ok (eval_mse_manhattan e)
  | Member DOT_PRODUCT => Ok (eval_mse_dot e)
  | PyNone =>
      Ok (Rmin (Rmin (Rmin (eval_mse_cosine e) (eval_mse_manhattan e))
                     (eval_mse_euclidean e))
               (eval_mse_dot e))
  | Other _ => Raise (ValueError "Unknown main_similarity value")
  end.

(** The five [logger.info] records of one call. *)
Definition log_lines (self : Evaluator) (epoch steps : Z) (e : MSEs) : list log_record :=
  [Info ("EmbeddingSimilarityEvaluator: Evaluating the model on "
         ++ name self ++ " dataset" ++ out_txt_of epoch steps);
   InfoFormat ("Cosine-Similarity :" ++ tab ++ "MSE: {:.6f}") (eval_mse_cosine e);
   InfoFormat ("Manhattan-Distance:" ++ tab ++ "MSE: {:.6f}") (eval_mse_manhattan e);
   InfoFormat ("Euclidean-Distance:" ++ tab ++ "MSE: {:.6f}") (eval_mse_euclidean e);
   InfoFormat ("Dot-Product-Similarity:" ++ tab ++ "MSE: {:.6f}") (eval_mse_dot e)].

(** The mean over the indices [0 .. n-1] of [f], as the spec words it. *)
Fixpoint sum_upto (n : nat) (f : nat -> R) : R :=
  match n with
  | O => 0%R
  | S k => (sum_upto k f + f k)%R
  end.

Definition mean_over_indices (n : nat) (f : nat -> R) : R :=
  (sum_upto n f / INR n)%R.

(** An evaluator that came out of the constructor. *)
Definition constructed (ev : Evaluator) : Prop :=
  exists s1 s2 sc bs sel nm spb wcsv p,
    init s1 s2 sc bs sel nm spb wcsv p = Ok ev.

(** A stub model: the same unit vector (or the same packed byte) for every
    sentence, one row per sentence. *)
Definition unit_model : Model :=
  {| encode := fun sentences _ _ p _ =>
       map (fun _ => match p return list (elem p) with
                     | float32 => [1%R; 0%R]
                     | _ => [5%Z]
                     end) sentences |}.

(** Two pairs with gold score 1, as the constructor stores them. *)
Definition sample_evaluator (sel : selector) (p : option Precision) : Evaluator :=
  {| sentences1 := ["a"; "a"]; sentences2 := ["a"; "a"]; scores := [1%R; 1%R];
     write_csv := true; precision := p; main_similarity := sel;
     name := ""; batch_size := 16; show_progress_bar := false;
     csv_file := derive_csv_file "" p;
     csv_headers := default_csv_headers |}.

Definition sample_world (sel : selector) (p : option Precision) : World :=
  {| this := sample_evaluator sel p; files := ∅; logged := [] |}.


(** The evaluator with its two sentence lists exchanged. *)
Definition swap_sentences (self : Evaluator) : Evaluator :=
  {| sentences1 := sentences2 self; sentences2 := sentences1 self;
     scores := scores self; write_csv := write_csv self;
     precision := precision self; main_similarity := main_similarity self;
     name := name self; batch_size := batch_size self;
     show_progress_bar := show_progress_bar self;
     csv_file := csv_file self; csv_headers := csv_headers self |}.

(** The evaluator with another selector. *)
Definition with_selector (sel : selector) (self : Evaluator) : Evaluator :=
  {| sentences1 := sentences1 self; sentences2 := sentences2 self;
     scores := scores self; write_csv := write_csv self;
     precision := precision self; main_similarity := sel;
     name := name self; batch_size := batch_size self;
     show_progress_bar := show_progress_bar self;
     csv_file := csv_file self; csv_headers := csv_headers self |}.

(** An entry of an unpacked embedding. *)
Definition is_bit (v : R) : Prop := v = 0%R \/ v = 1%R.

(** The bytes whose bits, most significant first, are the entries of a row
    taken eight at a time; entries left over at the end are dropped. *)
Fixpoint pack_row (bits : list Z) : list Z :=
  match bits with
  | b7 :: b6 :: b5 :: b4 :: b3 :: b2 :: b1 :: b0 :: rest =>
      (128 * b7 + 64 * b6 + 32 * b5 + 16 * b4 + 8 * b3 + 4 * b2 + 2 * b1 + b0)%Z
      :: pack_row rest
  | _ => []
  end.

(** A model that returns the one-entry row [100] for every sentence in the
    integer modes (and [100.0] in the floating mode). *)
Definition hundred_model : Model :=
  {| encode := fun sentences _ _ p _ =>
       map (fun _ => match p return list (elem p) with
                     | float32 => [100%R]
                     | _ => [100%Z]
                     end) sentences |}.

(** One pair whose gold score is the dot product of its two embeddings under
    [hundred_model]. *)
Definition hundred_evaluator (p : option Precision) : Evaluator :=
  {| sentences1 := ["a"]; sentences2 := ["b"]; scores := [10000%R];
     write_csv := true; precision := p; main_similarity := Member DOT_PRODUCT;
     name := ""; batch_size := 16; show_progress_bar := false;
     csv_file := derive_csv_file "" p;
     csv_headers := default_csv_headers |}.

(** The evaluator of the empty dataset, as the constructor stores it. *)
Definition empty_evaluator : Evaluator :=
  {| sentences1 := []; sentences2 := []; scores := [];
     write_csv := true; precision := None; main_similarity := PyNone;
     name := ""; batch_size := 16; show_progress_bar := false;
     csv_file := derive_csv_file "" None;
     csv_headers := default_csv_headers |}.

(** The first [logger.info] record of a call. *)
Definition announcement (self : Evaluator) (epoch steps : Z) : log_record :=
  Info ("EmbeddingSimilarityEvaluator: Evaluating the model on "
        ++ name self ++ " dataset" ++ out_txt_of epoch steps).

(** One configuration's name spells another's name and precision suffix:
    the first sets no precision mode and its name is the second's name
    followed by an underscore and the second's precision (just the
    precision when the second's name is empty). *)
Definition spells (nm : string) (p : option Precision)
    (nm' : string) (p' : option Precision) : Prop :=
  p = None /\
  exists q, p' = Some q /\
            nm = if truthy nm' then nm' ++ "_" ++ precision_str q
                 else precision_str q.

(** * Properties *)

(** ** The definitions on concrete inputs *)

Example derive_csv_file_plain :
  derive_csv_file "" None = "MSE_similarity_evaluation_results.csv".
Proof. reflexivity. Qed.

Example derive_csv_file_both :
  derive_csv_file "sts" (Some ubinary) =
  "MSE_similarity_evaluation_sts_ubinary_results.csv".
Proof. reflexivity. Qed.

Example path_join_cases :
  path_join "out" "f.csv" = "out/f.csv"
  /\ path_join "out/" "f.csv" = "out/f.csv"
  /\ path_join "" "f.csv" = "f.csv".
Proof. repeat split. Qed.

Example out_txt_cases :
  out_txt_of (-1) 7 = ":"
  /\ out_txt_of 2 (-1) = " after epoch 2:"
  /\ out_txt_of 2 150 = " in epoch 2 after 150 steps:".
Proof. repeat split. Qed.

Example np_unpackbits_two_bytes :
  np_unpackbits [[1; 128]%Z] = [[0; 0; 0; 0; 0; 0; 0; 1; 1; 0; 0; 0; 0; 0; 0; 0]%Z].
Proof. reflexivity. Qed.

Example add128_uint8_signed_bytes :
  add128_uint8 [[-128; -1; 0; 127]%Z] = [[0; 127; 128; 255]%Z].
Proof. reflexivity. Qed.

Example init_mismatch :
  init ["a"; "b"; "c"] ["x"; "y"; "z"] [1%R; 2%R] 16 PyNone "" false true None
  = Raise AssertionError.
Proof. reflexivity. Qed.

(** ** What one call does to the world *)

Lemma py_min_step (m y : R) : (if Rlt_dec y m then y else m) = Rmin m y.
Proof.
  unfold Rmin. destruct (Rlt_dec y m), (Rle_dec m y); try reflexivity; lra.
Qed.

Lemma py_min_four (a b c d : R) :
  py_min a [b; c; d] = Rmin (Rmin (Rmin a b) c) d.
Proof. unfold py_min. simpl. now rewrite !py_min_step. Qed.

Example py_min_picks_smallest : py_min 3 [1; 2; 4]%R = 1%R.
Proof.
  rewrite py_min_four.
  rewrite (Rmin_right 3 1) by lra. rewrite (Rmin_left 1 2) by lra.
  apply Rmin_left. lra.
Qed.

#[local] Arguments evaluate_mses : simpl never.
#[local] Arguments path_join : simpl never.
#[local] Arguments selected_score : simpl never.
#[local] Arguments py_min : simpl never.

Lemma select_branch (sel : selector) (e : MSEs) (w : World) :
  (if decide (sel = Member COSINE) then mret (eval_mse_cosine e)
   else if decide (sel = Member EUCLIDEAN) then mret (eval_mse_euclidean e)
   else if decide (sel = Member MANHATTAN) then mret (eval_mse_manhattan e)
   else if decide (sel = Member DOT_PRODUCT) then mret (eval_mse_dot e)
   else if decide (sel = PyNone) then
     mret (py_min (eval_mse_cosine e)
                  [eval_mse_manhattan e; eval_mse_euclidean e; eval_mse_dot e])
   else raise (ValueError "Unknown main_similarity value")) w
  = (selected_score sel e, w).
Proof.
  destruct sel as [[]| |v]; repeat case_decide; try congruence;
    unfold selected_score, mret, M_ret, raise; try reflexivity.
  now rewrite py_min_four.
Qed.

(** One call, as a function from world to result and world. *)
Lemma call_eq model output_path epoch steps w :
  call model output_path epoch steps w =
  (selected_score (main_similarity (this w)) (evaluate_mses model (this w)),
   {| this := this w;
      files := persist (this w) output_path
                 (data_row epoch steps (evaluate_mses model (this w))) (files w);
      logged := (logged w ++
                 log_lines (this w) epoch steps (evaluate_mses model (this w)))%list |}).
Proof.
  unfold call, persist, log_lines.
  unfold mbind, M_bind, get_self, logger_info. cbn.
  generalize (evaluate_mses model (this w)). intros e.
  destruct output_path as [dir|]; cbn.
  - destruct (write_csv (this w)); cbn.
    + unfold isfile, open_, writerow.
      destruct (files w !! path_join dir (csv_file (this w))) as [rows|] eqn:E;
        cbn; rewrite ?bool_decide_eq_true_2, ?bool_decide_eq_false_2
          by (rewrite ?E; eauto using is_Some_None); cbn;
        rewrite select_branch; cbn;
        rewrite ?lookup_insert_eq, ?insert_insert_eq; cbn;
        now rewrite <- !app_assoc.
    + rewrite select_branch; cbn. now rewrite <- !app_assoc.
  - rewrite select_branch; cbn. now rewrite <- !app_assoc.
Qed.



Lemma constructed_fields (ev : Evaluator) :
  constructed ev ->
  length (sentences1 ev) = length (sentences2 ev)
  /\ length (sentences1 ev) = length (scores ev)
  /\ csv_headers ev = default_csv_headers
  /\ csv_file ev = derive_csv_file (name ev) (precision ev).
Proof.
  intros (s1 & s2 & sc & bs & sel & nm & spb & wcsv & p & H).
  unfold init in H.
  destruct (Nat.eqb_spec (length s1) (length s2)) as [E1|]; simpl in H; [|discriminate].
  destruct (Nat.eqb_spec (length s1) (length sc)) as [E2|]; simpl in H; [|discriminate].
  injection H as <-. simpl. auto.
Qed.

Lemma sample_constructed sel p : constructed (sample_evaluator sel p).
Proof.
  exists ["a"; "a"], ["a"; "a"], [1%R; 1%R], 16%nat, sel, "", false, true, p.
  reflexivity.
Defined.

(** ** Construction *)

(** C5: when the three input lengths are not all equal the constructor
    raises the validation error (an [AssertionError]) and yields no
    evaluator; the constructor itself never touches a model, so this
    happens before any metric computation.  When the three lengths are
    equal, construction succeeds and stores the arguments. *)
Theorem init_validates_lengths (s1 s2 : list string) (sc : list R) (bs : nat)
    (sel : selector) (nm : string) (spb wcsv : bool) (p : option Precision) :
  (~ (length s1 = length s2 /\ length s1 = length sc) ->
     init s1 s2 sc bs sel nm spb wcsv p = Raise AssertionError
     /\ forall ev, init s1 s2 sc bs sel nm spb wcsv p <> Ok ev)
  /\ (length s1 = length s2 /\ length s1 = length sc ->
       exists ev, init s1 s2 sc bs sel nm spb wcsv p = Ok ev
                  /\ sentences1 ev = s1 /\ sentences2 ev = s2 /\ scores ev = sc).
Proof.
  unfold init. split.
  - intros Hne.
    destruct (Nat.eqb_spec (length s1) (length s2)) as [E1|N1]; simpl.
    + destruct (Nat.eqb_spec (length s1) (length sc)) as [E2|N2]; simpl.
      * exfalso. apply Hne. split; assumption.
      * split; [reflexivity | discriminate].
    + split; [reflexivity | discriminate].
  - intros [E1 E2].
    destruct (Nat.eqb_spec (length s1) (length s2)); [simpl | contradiction].
    destruct (Nat.eqb_spec (length s1) (length sc)); [simpl | contradiction].
    eexists. split; [reflexivity | simpl; auto].
Qed.

Lemma init_validates_lengths_witness :
  init ["a"; "b"; "c"] ["x"; "y"; "z"] [1%R; 2%R] 16 PyNone "" false true None
    = Raise AssertionError
  /\ exists ev, init ["a"] ["x"] [1%R] 16 PyNone "" false true None = Ok ev.
Proof.
  split.
  - apply (init_validates_lengths ["a"; "b"; "c"] ["x"; "y"; "z"] [1%R; 2%R]
             16 PyNone "" false true None).
    simpl. intros [_ H]. discriminate H.
  - destruct (init_validates_lengths ["a"] ["x"] [1%R] 16 PyNone "" false true None)
      as [_ H].
    destruct H as (ev & Hev & _); [simpl; split; reflexivity|].
    exists ev. exact Hev.
Defined.

(** ** The returned score *)

(** C1: the call returns the MSE named by the selector (cosine, euclidean,
    manhattan or dot product), the minimum of the four MSE values when the
    selector is [None], and raises the configuration error for any other
    selector value. *)
Theorem call_returns_selected_score (model : Model) (output_path : option string)
    (epoch steps : Z) (w : World) :
  fst (call model output_path epoch steps w) =
  match main_similarity (this w) with
  | Member COSINE => Ok (eval_mse_cosine (evaluate_mses model (this w)))
  | Member EUCLIDEAN => Ok (eval_mse_euclidean (evaluate_mses model (this w)))
  | Member MANHATTAN => Ok (eval_mse_manhattan (evaluate_mses model (this w)))
  | Member DOT_PRODUCT => Ok (eval_mse_dot (evaluate_mses model (this w)))
  | PyNone =>
      Ok (Rmin (Rmin (Rmin (eval_mse_cosine (evaluate_mses model (this w)))
                           (eval_mse_manhattan (evaluate_mses model (this w))))
                     (eval_mse_euclidean (evaluate_mses model (this w))))
               (eval_mse_dot (evaluate_mses model (this w))))
  | Other _ => Raise (ValueError "Unknown main_similarity value")
  end.
Proof. rewrite call_eq. reflexivity. Qed.

(** ** Persistence *)


Lemma persist_lookup_other (self : Evaluator) (output_path : option string)
    (row : csv_row) (fs : gmap string (list csv_row)) (path : string) :
  (forall dir, output_path = Some dir -> path <> path_join dir (csv_file self)) ->
  persist self output_path row fs !! path = fs !! path.
Proof.
  intros Hne. unfold persist.
  destruct output_path as [dir|]; [|reflexivity].
  destruct (write_csv self); [|reflexivity].
  specialize (Hne dir eq_refl).
  destruct (fs !! path_join dir (csv_file self)); cbn;
    now rewrite lookup_insert_ne by congruence.
Qed.




(** ** Frame *)

(** C8: a call leaves the evaluator object as it was (sentences1,
    sentences2, scores and every configuration field); in the file system
    only the evaluator's log file can change, and nothing changes there when
    no output path is given or persistence is off; the logger output only
    grows. *)
Theorem call_preserves_evaluator (model : Model) (output_path : option string)
    (epoch steps : Z) (w : World) :
  let w' := snd (call model output_path epoch steps w) in
  this w' = this w
  /\ (forall path : string,
        (forall dir, output_path = Some dir ->
                     path <> path_join dir (csv_file (this w))) ->
        files w' !! path = files w !! path)
  /\ (output_path = None \/ write_csv (this w) = false -> files w' = files w)
  /\ exists lines, logged w' = (logged w ++ lines)%list.
Proof.
  intros w'. unfold w'. rewrite call_eq. cbn. repeat split.
  - intros path Hne. now apply persist_lookup_other.
  - unfold persist. intros [-> | Hw]; [reflexivity|].
    rewrite Hw. now destruct output_path.
  - eexists. reflexivity.
Qed.

Lemma call_preserves_evaluator_witness :
  let w := sample_world PyNone (Some int8) in
  let w' := snd (call unit_model None 0 0 w) in
  this w' = this w /\ files w' = files w
  /\ files w' !! "elsewhere.txt" = files w !! "elsewhere.txt".
Proof.
  intros w w'.
  destruct (call_preserves_evaluator unit_model None 0 0 w) as (H1 & H2 & H3 & _).
  split; [exact H1|]. split.
  - apply H3. left. reflexivity.
  - apply H2. intros dir Hd. discriminate Hd.
Defined.

(** ** Unknown selector *)



(** ** The derived file name *)

Section Strings.

Lemma chars_app (a b : string) :
  list_ascii_of_string (a ++ b) =
  (list_ascii_of_string a ++ list_ascii_of_string b)%list.
Proof. induction a as [|c a IH]; simpl; [reflexivity | now rewrite IH]. Qed.

Lemma chars_inj (a b : string) :
  list_ascii_of_string a = list_ascii_of_string b -> a = b.
Proof.
  intros H. apply (f_equal string_of_list_ascii) in H.
  now rewrite !string_of_list_ascii_of_string in H.
Qed.

Lemma append_assoc (a b c : string) : (a ++ b) ++ c = a ++ (b ++ c).
Proof. apply chars_inj. rewrite !chars_app. now rewrite app_assoc. Qed.

Lemma append_inv_head (s a b : string) : s ++ a = s ++ b -> a = b.
Proof. induction s as [|c s IH]; simpl; intros H; [exact H | injection H; auto]. Qed.

Lemma append_inv_tail (s a b : string) : a ++ s = b ++ s -> a = b.
Proof.
  intros H. apply chars_inj. apply (f_equal list_ascii_of_string) in H.
  rewrite !chars_app in H. now apply app_inv_tail in H.
Qed.

(** Two lists cut at the first occurrence of a separator agree piecewise. *)
Lemma split_first_sep {A : Type} (c : A) (a a' x x' : list A) :
  ~ In c a -> ~ In c a' ->
  (a ++ c :: x = a' ++ c :: x')%list -> a = a' /\ x = x'.
Proof.
  revert a'. induction a as [|h a IH]; intros [|h' a'] Ha Ha' H; simpl in *.
  - injection H as ->. auto.
  - injection H as <- _. exfalso. apply Ha'. now left.
  - injection H as -> _. exfalso. apply Ha. now left.
  - injection H as -> H.
    destruct (IH a') as [-> ->]; auto.
Qed.

(** The same at the last occurrence. *)
Lemma split_last_sep {A : Type} (c : A) (l l' t t' : list A) :
  ~ In c t -> ~ In c t' ->
  (l ++ c :: t = l' ++ c :: t')%list -> l = l' /\ t = t'.
Proof.
  intros Ht Ht' H. apply (f_equal (@rev A)) in H.
  rewrite !rev_app_distr in H. simpl in H. rewrite <- !app_assoc in H.
  simpl in H.
  apply split_first_sep in H; try (rewrite <- in_rev; assumption).
  destruct H as [H1 H2].
  apply (f_equal (@rev A)) in H1, H2. rewrite !rev_involutive in H1, H2.
  auto.
Qed.

End Strings.

Lemma name_suffix_inj (nm nm' : string) :
  name_suffix nm = name_suffix nm' -> nm = nm'.
Proof.
  unfold name_suffix. destruct nm, nm'; simpl; intros H;
    try reflexivity; try discriminate. now injection H as -> ->.
Qed.

Lemma precision_suffix_inj (p p' : option Precision) :
  precision_suffix p = precision_suffix p' -> p = p'.
Proof.
  destruct p as [[]|], p' as [[]|]; simpl; intros H;
    try reflexivity; discriminate.
Qed.

Lemma precision_suffix_some (q : Precision) :
  precision_suffix (Some q) = "_" ++ precision_str q.
Proof. destruct q; reflexivity. Qed.

Lemma precision_str_no_sep (q : Precision) :
  ~ In "_"%char (list_ascii_of_string (precision_str q)).
Proof.
  destruct q; simpl; intros H;
    repeat (destruct H as [H|H]; [discriminate H|]); exact H.
Qed.

(** Equal file names have equal suffix parts. *)
Lemma derive_csv_file_stem (nm nm' : string) (p p' : option Precision) :
  derive_csv_file nm p = derive_csv_file nm' p' ->
  name_suffix nm ++ precision_suffix p = name_suffix nm' ++ precision_suffix p'.
Proof.
  unfold derive_csv_file. intros H.
  apply append_inv_head in H.
  apply (append_inv_tail "_results.csv").
  now rewrite !append_assoc.
Qed.

(** C7, the part that fails: the precision suffix of one configuration can
    be spelled by the name of another, so configurations that differ in
    both name and precision may share a file name. *)
Lemma csv_file_name_collision :
  ~ (forall (nm nm' : string) (p p' : option Precision),
       nm <> nm' \/ p <> p' ->
       derive_csv_file nm p <> derive_csv_file nm' p').
Proof.
  intros H.
  apply (H "int8" "" None (Some int8)); [left; discriminate | reflexivity].
Qed.

Lemma append_empty_r (a : string) : a ++ "" = a.
Proof. apply chars_inj. rewrite chars_app. apply app_nil_r. Qed.

Lemma append_cons (c : ascii) (r s : string) : String c r ++ s = String c (r ++ s).
Proof. reflexivity. Qed.

Lemma name_suffix_nonempty (c : ascii) (r : string) :
  name_suffix (String c r) = "_" ++ String c r.
Proof. reflexivity. Qed.

Lemma precision_str_truthy (q : Precision) : truthy (precision_str q) = true.
Proof. destruct q; reflexivity. Qed.

(** A name that spells another configuration gives that configuration's
    file name. *)
Lemma spells_collides (nm nm' : string) (p p' : option Precision) :
  spells nm p nm' p' -> derive_csv_file nm p = derive_csv_file nm' p'.
Proof.
  intros (-> & q & -> & ->). unfold derive_csv_file. f_equal.
  rewrite precision_suffix_some. cbn [precision_suffix].
  destruct nm' as [|c r]; cbn [truthy].
  - unfold name_suffix. rewrite precision_str_truthy. reflexivity.
  - rewrite (append_cons c r), name_suffix_nonempty, <- (append_cons c r).
    rewrite name_suffix_nonempty.
    apply chars_inj.
    repeat (rewrite ?chars_app; cbn [list_ascii_of_string app]).
    now rewrite <- ?app_assoc.
Qed.

Lemma stem_without_precision (nm nm' : string) (q : Precision) :
  name_suffix nm ++ precision_suffix None
  = name_suffix nm' ++ precision_suffix (Some q) ->
  spells nm None nm' (Some q).
Proof.
  rewrite precision_suffix_some. cbn [precision_suffix].
  rewrite append_empty_r. intros H.
  split; [reflexivity|]. exists q. split; [reflexivity|].
  destruct nm as [|c r].
  - exfalso. apply (f_equal String.length) in H.
    destruct nm'; cbn in H; discriminate H.
  - rewrite name_suffix_nonempty in H.
    destruct nm' as [|c' r']; cbn [truthy].
    + cbn in H. now injection H.
    + rewrite name_suffix_nonempty in H.
      apply (f_equal list_ascii_of_string) in H.
      repeat (rewrite ?chars_app in H; cbn [list_ascii_of_string app] in H).
      injection H as Hc Hr. subst c'. apply chars_inj.
      repeat (rewrite ?chars_app; cbn [list_ascii_of_string app]).
      rewrite Hr. reflexivity.
Qed.

(** C7, amended: the file name is the prefix [MSE_similarity_evaluation],
    then [_name] only for a non-empty name, then [_precision] only when a
    precision mode is set, then [_results.csv].  Two configurations derive
    the same file name exactly when they are identical or one of them sets
    no precision mode and its name is the other's name followed by an
    underscore and the other's precision (just the other's precision when
    the other's name is empty); every other pair of configurations that
    differ in name or precision derives distinct file names, and identical
    configurations derive the same file name. *)
Theorem csv_file_name_derivation (nm nm' : string) (p p' : option Precision) :
  derive_csv_file nm p =
    "MSE_similarity_evaluation"
    ++ (if decide (nm = "") then "" else "_" ++ nm)
    ++ match p with Some q => "_" ++ precision_str q | None => "" end
    ++ "_results.csv"
  /\ (derive_csv_file nm p = derive_csv_file nm' p' <->
      (nm = nm' /\ p = p') \/ spells nm p nm' p' \/ spells nm' p' nm p)
  /\ (nm <> nm' \/ p <> p' ->
      ~ spells nm p nm' p' -> ~ spells nm' p' nm p ->
      derive_csv_file nm p <> derive_csv_file nm' p')
  /\ (nm = nm' -> p = p' -> derive_csv_file nm p = derive_csv_file nm' p').
Proof.
  assert (Hchar : derive_csv_file nm p = derive_csv_file nm' p' ->
                  (nm = nm' /\ p = p') \/ spells nm p nm' p' \/ spells nm' p' nm p).
  { intros Heq. apply derive_csv_file_stem in Heq.
    destruct p as [q|], p' as [q'|].
    - left. rewrite !precision_suffix_some in Heq.
      apply (f_equal list_ascii_of_string) in Heq.
      rewrite !chars_app in Heq.
      change (list_ascii_of_string "_") with ["_"%char] in Heq.
      cbn [app] in Heq.
      apply split_last_sep in Heq; try apply precision_str_no_sep.
      destruct Heq as [H1 H2].
      apply chars_inj, name_suffix_inj in H1.
      apply chars_inj in H2.
      assert (q = q') by (destruct q, q'; simpl in H2; congruence).
      subst. auto.
    - right. right. apply stem_without_precision. symmetry. exact Heq.
    - right. left. apply stem_without_precision. exact Heq.
    - left. apply append_inv_tail, name_suffix_inj in Heq. subst. auto. }
  split; [|split; [|split]].
  - unfold derive_csv_file, name_suffix. f_equal. f_equal.
    + destruct nm; reflexivity.
    + f_equal. destruct p as [[]|]; reflexivity.
  - split; [exact Hchar|].
    intros [[-> ->] | [H | H]]; [reflexivity | now apply spells_collides |].
    symmetry. now apply spells_collides.
  - intros Hdiff Hs Hs' Heq.
    destruct (Hchar Heq) as [[Hn Hp] | [H | H]]; [|contradiction|contradiction].
    destruct Hdiff; contradiction.
  - intros -> ->. reflexivity.
Qed.

Lemma csv_file_name_derivation_witness :
  derive_csv_file "sts" None <> derive_csv_file "dev" (Some int8)
  /\ derive_csv_file "sts" (Some int8) <> derive_csv_file "sts" (Some uint8).
Proof.
  split.
  - apply (csv_file_name_derivation "sts" "dev" None (Some int8)).
    + left. discriminate.
    + intros (_ & q & Hq & H). injection Hq as <-. discriminate H.
    + intros (H & _). discriminate H.
  - apply (csv_file_name_derivation "sts" "sts" (Some int8) (Some uint8)).
    + right. discriminate.
    + intros (H & _). discriminate H.
    + intros (H & _). discriminate H.
Defined.

(** ** Packed embeddings *)

Lemma byte_bits_length (b : Z) : length (byte_bits b) = 8%nat.
Proof. reflexivity. Qed.

Lemma byte_bits_01 (b : Z) : Forall (fun x => x = 0%Z \/ x = 1%Z) (byte_bits b).
Proof.
  unfold byte_bits. cbn [map].
  repeat (constructor; [destruct (Z.testbit b _); auto|]).
  constructor.
Qed.

(** Bit [k] (counted from the left) of a byte is its binary digit of weight
    [2^(7-k)]. *)
Lemma byte_bits_lookup (b : Z) (k : nat) :
  (k < 8)%nat ->
  byte_bits b !! k = Some (if Z.testbit b (7 - Z.of_nat k) then 1%Z else 0%Z).
Proof.
  intros Hk. unfold byte_bits.
  do 8 (destruct k as [|k]; [reflexivity|]). lia.
Qed.

Lemma unpack_row_length (row : list Z) :
  length (concat (map byte_bits row)) = (8 * length row)%nat.
Proof.
  induction row as [|b row IH]; [reflexivity|].
  cbn [map concat]. rewrite length_app, byte_bits_length, IH. simpl. lia.
Qed.

Lemma unpack_row_01 (row : list Z) :
  Forall (fun x => x = 0%Z \/ x = 1%Z) (concat (map byte_bits row)).
Proof.
  induction row as [|b row IH]; [constructor|].
  cbn [map concat]. apply Forall_app. split; [apply byte_bits_01 | exact IH].
Qed.

Lemma unpack_row_lookup (row : list Z) (j k : nat) (b : Z) :
  row !! j = Some b -> (k < 8)%nat ->
  concat (map byte_bits row) !! (8 * j + k)%nat =
  Some (if Z.testbit b (7 - Z.of_nat k) then 1%Z else 0%Z).
Proof.
  revert j. induction row as [|b0 row IH]; intros j Hj Hk; [discriminate|].
  cbn [map concat]. destruct j as [|j].
  - injection Hj as ->. rewrite lookup_app_l by (rewrite byte_bits_length; lia).
    replace (8 * 0 + k)%nat with k by lia. now apply byte_bits_lookup.
  - rewrite lookup_app_r by (rewrite byte_bits_length; lia).
    rewrite byte_bits_length.
    replace (8 * S j + k - 8)%nat with (8 * j + k)%nat by lia.
    now apply IH.
Qed.

Lemma lookup_map {A B : Type} (f : A -> B) (l : list A) (i : nat) :
  map f l !! i = f <$> (l !! i).
Proof.
  revert i. induction l as [|x l IH]; intros [|i]; simpl; try reflexivity.
  apply IH.
Qed.

Lemma astype_uint8_range (z : Z) : (0 <= astype_uint8 z < 256)%Z.
Proof. unfold astype_uint8. apply Z.mod_pos_bound. lia. Qed.

Lemma add128_int8 (b : Z) :
  (-128 <= b < 128)%Z -> astype_uint8 (b + 128) = (b + 128)%Z.
Proof. intros H. unfold astype_uint8. apply Z.mod_small. lia. Qed.

(** C4: in binary mode every packed byte [b] is replaced by [b + 128] taken
    as an unsigned 8-bit value before unpacking; in binary and ubinary mode
    every row is unpacked into the bits of its bytes, eight 0/1 entries per
    byte, most significant bit first; and the four metrics are computed from
    the arrays so unpacked. *)
Theorem packed_embeddings_unpacked (model : Model) (self : Evaluator) :
  let raw := fun (p : Precision) (ss : list string) =>
    encode model ss (batch_size self) (show_progress_bar self) p true in
  (precision self = Some binary ->
   forall ss, embed model self ss =
     map (map IZR)
         (np_unpackbits (map (map (fun b => ((b + 128) mod 256)%Z)) (raw binary ss))))
  /\ (precision self = Some ubinary ->
      forall ss, embed model self ss =
        map (map IZR) (np_unpackbits (raw ubinary ss)))
  /\ (forall (a : list (list Z)) (i : nat) (row : list Z),
        a !! i = Some row ->
        exists bits,
          np_unpackbits a !! i = Some bits
          /\ length bits = (8 * length row)%nat
          /\ Forall (fun x => x = 0%Z \/ x = 1%Z) bits
          /\ forall (j k : nat) (b : Z),
               row !! j = Some b -> (k < 8)%nat ->
               bits !! (8 * j + k)%nat =
               Some (if Z.testbit b (7 - Z.of_nat k) then 1%Z else 0%Z))
  /\ evaluate_mses model self =
     mses_of (metrics_of (embed model self (sentences1 self))
                         (embed model self (sentences2 self)))
             (scores self).
Proof.
  cbv zeta. split; [|split; [|split]].
  - intros Hp ss. unfold embed. rewrite Hp. reflexivity.
  - intros Hp ss. unfold embed. rewrite Hp. reflexivity.
  - intros a i row Hi. exists (concat (map byte_bits row)).
    split; [|split; [|split]].
    + unfold np_unpackbits. rewrite lookup_map, Hi. reflexivity.
    + apply unpack_row_length.
    + apply unpack_row_01.
    + intros j k b Hj Hk. now apply unpack_row_lookup.
  - reflexivity.
Qed.

Lemma packed_embeddings_unpacked_witness :
  embed unit_model (sample_evaluator PyNone (Some binary)) ["a"]
    = [[1; 0; 0; 0; 0; 1; 0; 1]%R]
  /\ embed unit_model (sample_evaluator PyNone (Some ubinary)) ["a"]
    = [[0; 0; 0; 0; 0; 1; 0; 1]%R].
Proof.
  destruct (packed_embeddings_unpacked unit_model
              (sample_evaluator PyNone (Some binary))) as (Hb & _).
  destruct (packed_embeddings_unpacked unit_model
              (sample_evaluator PyNone (Some ubinary))) as (_ & Hu & _).
  split.
  - rewrite (Hb eq_refl). reflexivity.
  - rewrite (Hu eq_refl). reflexivity.
Defined.

(** ** The four metric arrays and their mean squared error *)

Section Numerics.

Local Open Scope list_scope.
Local Open Scope R_scope.

Lemma Rsum_nil : Rsum [] = 0.
Proof. reflexivity. Qed.

Lemma Rsum_cons (x : R) (a : vector) : Rsum (x :: a) = x + Rsum a.
Proof. reflexivity. Qed.

Lemma Rsum_app (a b : vector) : Rsum (a ++ b) = Rsum a + Rsum b.
Proof.
  induction a as [|x a IH]; cbn [app].
  - rewrite Rsum_nil. lra.
  - rewrite !Rsum_cons, IH. lra.
Qed.

Lemma sum_upto_ext (n : nat) (f g : nat -> R) :
  (forall i, (i < n)%nat -> f i = g i) -> sum_upto n f = sum_upto n g.
Proof.
  induction n as [|n IH]; intros H; simpl; [reflexivity|].
  rewrite IH by (intros i Hi; apply H; lia).
  rewrite (H n) by lia. reflexivity.
Qed.

Lemma Rsum_sum_upto (l : vector) :
  Rsum l = sum_upto (length l) (fun i => nth i l 0).
Proof.
  induction l as [|x l IH] using rev_ind; [reflexivity|].
  rewrite Rsum_app, length_app. simpl length.
  replace (length l + 1)%nat with (S (length l)) by lia. simpl sum_upto.
  rewrite app_nth2 by lia. rewrite Nat.sub_diag. simpl nth.
  rewrite IH, Rsum_cons, Rsum_nil. f_equal; [|lra].
  apply sum_upto_ext. intros i Hi. now rewrite app_nth1.
Qed.

Lemma Rsum_square_nonneg (a : vector) : 0 <= Rsum (np_square a).
Proof.
  induction a as [|x a IH]; cbn [np_square map].
  - rewrite Rsum_nil. lra.
  - rewrite Rsum_cons. fold (np_square a). pose proof (pow2_ge_0 x). lra.
Qed.

Lemma nth_zip_with {A B C : Type} (f : A -> B -> C) (a : list A) (b : list B)
    (i : nat) (da : A) (db : B) (dc : C) :
  (i < length a)%nat -> (i < length b)%nat ->
  nth i (zip_with f a b) dc = f (nth i a da) (nth i b db).
Proof.
  revert b i. induction a as [|x a IH]; intros [|y b] [|i] Ha Hb;
    simpl in *; try lia; try reflexivity.
  apply IH; lia.
Qed.

Lemma nth_map_lt {A B : Type} (f : A -> B) (l : list A) (i : nat)
    (da : A) (db : B) :
  (i < length l)%nat -> nth i (map f l) db = f (nth i l da).
Proof.
  revert i. induction l as [|x l IH]; intros [|i] Hi; simpl in *;
    try lia; try reflexivity.
  apply IH. lia.
Qed.

Lemma length_zip_with_same {A B C : Type} (f : A -> B -> C)
    (a : list A) (b : list B) (n : nat) :
  length a = n -> length b = n -> length (zip_with f a b) = n.
Proof. intros Ha Hb. rewrite length_zip_with. lia. Qed.

(** [mse] is the mean over the indices of the squared differences. *)
Lemma mse_mean_over_indices (a labels : vector) (n : nat) :
  length a = n -> length labels = n ->
  mse a labels = mean_over_indices n (fun i => (nth i a 0 - nth i labels 0) ^ 2).
Proof.
  intros Ha Hl. unfold mse, np_mean, mean_over_indices.
  assert (Hlen : length (np_square (np_sub a labels)) = n).
  { unfold np_square, np_sub. rewrite length_map.
    now apply length_zip_with_same. }
  rewrite Rsum_sum_upto, Hlen. f_equal.
  apply sum_upto_ext. intros i Hi.
  unfold np_square, np_sub.
  rewrite (nth_map_lt (fun x => x ^ 2) _ i 0 0)
    by (erewrite length_zip_with_same; eauto).
  rewrite (nth_zip_with Rminus a labels i 0 0 0) by lia.
  reflexivity.
Qed.

Lemma mse_nonneg (a labels : vector) :
  (1 <= length a)%nat -> (1 <= length labels)%nat -> 0 <= mse a labels.
Proof.
  intros Ha Hl. unfold mse, np_mean.
  apply Rmult_le_pos; [apply Rsum_square_nonneg|].
  apply Rlt_le, Rinv_0_lt_compat, lt_0_INR.
  unfold np_square, np_sub. rewrite length_map, length_zip_with. lia.
Qed.

End Numerics.

Section Metrics.

Local Open Scope list_scope.
Local Open Scope R_scope.

Lemma Rsum_abs_nonneg (a : vector) : 0 <= Rsum (map Rabs a).
Proof.
  induction a as [|x a IH]; cbn [map].
  - rewrite Rsum_nil. lra.
  - rewrite Rsum_cons. pose proof (Rabs_pos x). lra.
Qed.

Lemma manhattan_distance_nonneg (x y : vector) : 0 <= manhattan_distance x y.
Proof. apply Rsum_abs_nonneg. Qed.

Lemma euclidean_distance_nonneg (x y : vector) : 0 <= euclidean_distance x y.
Proof. apply sqrt_pos. Qed.

Lemma cosine_distance_nonneg (x y : vector) : 0 <= cosine_distance x y.
Proof.
  unfold cosine_distance.
  pose proof (Rsum_square_nonneg (np_sub (normalize_row x) (normalize_row y))).
  lra.
Qed.

(** Sum of squared differences of two scaled vectors of the same length. *)
Lemma Rsum_square_scaled_diff (x y : vector) (a b : R) :
  length x = length y -> a <> 0 -> b <> 0 ->
  Rsum (np_square (np_sub (map (fun v => v / a) x) (map (fun v => v / b) y))) =
  Rsum (np_square x) / (a * a) - 2 * np_dot x y / (a * b)
  + Rsum (np_square y) / (b * b).
Proof.
  intros Hlen Ha Hb. revert y Hlen.
  induction x as [|u x IH]; intros [|v y] Hlen; try discriminate.
  - unfold np_dot, np_square, np_sub. cbn [map zip_with].
    rewrite !Rsum_nil. field. auto.
  - injection Hlen as Hlen. specialize (IH y Hlen).
    unfold np_dot, np_square, np_sub in *. cbn [map zip_with].
    rewrite !Rsum_cons, IH. field. auto.
Qed.

Lemma l2_norm_square (x : vector) : l2_norm x * l2_norm x = Rsum (np_square x).
Proof. unfold l2_norm. apply sqrt_sqrt, Rsum_square_nonneg. Qed.

(** For two non-zero vectors of the same length, one minus the cosine
    distance is the cosine of their angle. *)
Lemma cosine_similarity_formula (x y : vector) :
  length x = length y -> l2_norm x <> 0 -> l2_norm y <> 0 ->
  1 - cosine_distance x y = np_dot x y / (l2_norm x * l2_norm y).
Proof.
  intros Hlen Hx Hy. unfold cosine_distance, normalize_row.
  destruct (Req_dec_T (l2_norm x) 0) as [E|_]; [contradiction|].
  destruct (Req_dec_T (l2_norm y) 0) as [E|_]; [contradiction|].
  rewrite Rsum_square_scaled_diff by assumption.
  rewrite <- !l2_norm_square. field. auto.
Qed.

Lemma Rsum_square_sub_self (a : vector) : Rsum (np_square (np_sub a a)) = 0.
Proof.
  induction a as [|x a IH]; unfold np_square, np_sub in *; cbn [map zip_with].
  - apply Rsum_nil.
  - rewrite Rsum_cons, IH. lra.
Qed.

(** Identical embeddings are at distance zero, so they get the largest
    value a distance-derived metric can take. *)
Lemma cosine_distance_self (x : vector) : cosine_distance x x = 0.
Proof. unfold cosine_distance. rewrite Rsum_square_sub_self. lra. Qed.

Lemma euclidean_distance_self (x : vector) : euclidean_distance x x = 0.
Proof. unfold euclidean_distance. rewrite Rsum_square_sub_self. apply sqrt_0. Qed.

Lemma manhattan_distance_self (x : vector) : manhattan_distance x x = 0.
Proof.
  unfold manhattan_distance, np_sub.
  induction x as [|v x IH]; cbn [map zip_with].
  - apply Rsum_nil.
  - rewrite Rsum_cons, IH. replace (v - v) with 0 by lra. rewrite Rabs_R0. lra.
Qed.

(** The spec's end-to-end scenario: two pairs of identical sentences with
    gold score 1 and a model that returns the same unit vector for every
    sentence give cosine similarity 1 for both pairs and MSE_cosine 0. *)
Example end_to_end_identical_unit_vectors :
  fst (call unit_model None (-1) (-1) (sample_world (Member COSINE) None)) = Ok 0.
Proof.
  rewrite call_eq. cbn [fst sample_world this sample_evaluator main_similarity].
  unfold selected_score. f_equal.
  unfold evaluate_mses, mses_of, metrics_of, embed, unit_model.
  cbn [eval_mse_cosine cosine_scores sentences1 sentences2 scores precision
       batch_size show_progress_bar sample_evaluator encode map].
  unfold paired_cosine_distances, np_rsub1. cbn [zip_with map].
  rewrite cosine_distance_self.
  unfold mse, np_mean, np_square, np_sub. cbn [zip_with map length].
  rewrite !Rsum_cons, Rsum_nil. simpl INR. lra.
Qed.

End Metrics.

Section Claims_on_metrics.

Local Open Scope list_scope.
Local Open Scope R_scope.

(** C2: for a dataset of N >= 1 pairs and two embedding batches of N rows,
    each of the four MSE values is the mean over the indices i of
    (metric[i] - scores[i])^2 for its metric array, and is >= 0. *)
Theorem mse_values_mean_squared_error (model : Model) (self : Evaluator) (n : nat) :
  let embeddings1 := embed model self (sentences1 self) in
  let embeddings2 := embed model self (sentences2 self) in
  let labels := scores self in
  let m := metrics_of embeddings1 embeddings2 in
  let e := evaluate_mses model self in
  let squared_error := fun (metric : vector) (i : nat) =>
    (nth i metric 0 - nth i labels 0) ^ 2 in
  (1 <= n)%nat ->
  length labels = n -> length embeddings1 = n -> length embeddings2 = n ->
  (eval_mse_cosine e = mean_over_indices n (squared_error (cosine_scores m))
   /\ eval_mse_manhattan e = mean_over_indices n (squared_error (manhattan_distances m))
   /\ eval_mse_euclidean e = mean_over_indices n (squared_error (euclidean_distances m))
   /\ eval_mse_dot e = mean_over_indices n (squared_error (dot_products m)))
  /\ 0 <= eval_mse_cosine e
  /\ 0 <= eval_mse_manhattan e
  /\ 0 <= eval_mse_euclidean e
  /\ 0 <= eval_mse_dot e.
Proof.
  intros E1 E2 labels m e sq Hn Hl H1 H2.
  assert (Hc : length (cosine_scores m) = n).
  { unfold m, metrics_of, np_rsub1, paired_cosine_distances. cbn [cosine_scores].
    rewrite length_map. now apply length_zip_with_same. }
  assert (Hm : length (manhattan_distances m) = n).
  { unfold m, metrics_of, np_neg, paired_manhattan_distances.
    cbn [manhattan_distances].
    rewrite length_map. now apply length_zip_with_same. }
  assert (He : length (euclidean_distances m) = n).
  { unfold m, metrics_of, np_neg, paired_euclidean_distances.
    cbn [euclidean_distances].
    rewrite length_map. now apply length_zip_with_same. }
  assert (Hd : length (dot_products m) = n).
  { unfold m, metrics_of. cbn [dot_products]. now apply length_zip_with_same. }
  unfold e, evaluate_mses, mses_of. fold E1 E2 labels m.
  cbn [eval_mse_cosine eval_mse_manhattan eval_mse_euclidean eval_mse_dot].
  split; [repeat split; now apply mse_mean_over_indices|].
  repeat split; apply mse_nonneg; lia.
Qed.

Lemma mse_values_mean_squared_error_witness :
  0 <= eval_mse_cosine (evaluate_mses unit_model (sample_evaluator PyNone None))
  /\ 0 <= eval_mse_dot (evaluate_mses unit_model (sample_evaluator PyNone None)).
Proof.
  destruct (mse_values_mean_squared_error unit_model
              (sample_evaluator PyNone None) 2)
    as (_ & Hc & _ & _ & Hd); try reflexivity; [simpl; lia|].
  split; [exact Hc | exact Hd].
Defined.

Lemma lookup_nth {A : Type} (l : list A) (i : nat) (v d : A) :
  l !! i = Some v -> nth i l d = v.
Proof.
  revert i. induction l as [|x l IH]; intros [|i] H; simpl in *;
    try discriminate; [now injection H | now apply IH].
Qed.

End Claims_on_metrics.

(** * Further properties of the code *)

(** ** The alternate constructor *)

Section From_input_examples.

Local Open Scope list_scope.

Lemma append_example_ok (a1 a2 : list string) (a3 : list R) (ex : InputExample) :
  (2 <= length (texts ex))%nat ->
  append_example (a1, a2, a3) ex =
  Some (a1 ++ [nth 0 (texts ex) ""], a2 ++ [nth 1 (texts ex) ""], a3 ++ [label ex]).
Proof.
  intros H. unfold append_example.
  destruct (texts ex) as [|t0 [|t1 ts]]; simpl in *; try lia. reflexivity.
Qed.

Lemma append_example_short (acc : list string * list string * list R)
    (ex : InputExample) :
  (length (texts ex) < 2)%nat -> append_example acc ex = None.
Proof.
  intros H. unfold append_example. destruct acc as [[a1 a2] a3].
  destruct (texts ex) as [|t0 [|t1 ts]]; simpl in *; try lia; reflexivity.
Qed.

Lemma collect_examples_ok (examples : list InputExample)
    (a1 a2 : list string) (a3 : list R) :
  Forall (fun ex => (2 <= length (texts ex))%nat) examples ->
  collect_examples examples (a1, a2, a3) =
  Some (a1 ++ map (fun ex => nth 0 (texts ex) "") examples,
        a2 ++ map (fun ex => nth 1 (texts ex) "") examples,
        a3 ++ map label examples).
Proof.
  intros H. revert a1 a2 a3.
  induction H as [|ex rest Hex _ IH]; intros a1 a2 a3; cbn [collect_examples map].
  - now rewrite !app_nil_r.
  - rewrite append_example_ok by assumption. rewrite IH.
    now rewrite <- !app_assoc.
Qed.

Lemma collect_examples_short (examples : list InputExample)
    (acc : list string * list string * list R) :
  Exists (fun ex => (length (texts ex) < 2)%nat) examples ->
  collect_examples examples acc = None.
Proof.
  intros H. revert acc.
  induction H as [ex rest Hex | ex rest _ IH]; intros acc; cbn [collect_examples].
  - now rewrite append_example_short.
  - destruct (append_example acc ex); [apply IH | reflexivity].
Qed.

Lemma examples_all_or_short (examples : list InputExample) :
  Forall (fun ex => (2 <= length (texts ex))%nat) examples
  \/ Exists (fun ex => (length (texts ex) < 2)%nat) examples.
Proof.
  induction examples as [|ex rest [IH|IH]].
  - left. constructor.
  - destruct (le_lt_dec 2 (length (texts ex))).
    + left. now constructor.
    + right. now constructor.
  - right. now constructor 2.
Qed.

Lemma from_input_examples_returns (examples : list InputExample)
    (kwargs : InitKwargs) :
  Forall (fun ex => (2 <= length (texts ex))%nat) examples ->
  exists ev, from_input_examples examples kwargs = Returned ev.
Proof.
  intros H. unfold from_input_examples.
  rewrite collect_examples_ok by assumption. cbn [app].
  unfold init. rewrite !length_map, Nat.eqb_refl. cbn [negb].
  eexists. reflexivity.
Qed.

(** X1: when every example carries at least two texts, the alternate
    constructor returns an evaluator whose sentence lists are the first and
    second texts and whose scores are the labels, in the order of the
    examples; further texts of an example are ignored.  The batch size,
    selector, name, persistence flag and precision given as keyword
    arguments are stored as given, and the file name is derived from that
    name and precision. *)
Theorem from_input_examples_projects (examples : list InputExample)
    (kwargs : InitKwargs) :
  Forall (fun ex => (2 <= length (texts ex))%nat) examples ->
  exists ev,
    from_input_examples examples kwargs = Returned ev
    /\ sentences1 ev = map (fun ex => nth 0 (texts ex) "") examples
    /\ sentences2 ev = map (fun ex => nth 1 (texts ex) "") examples
    /\ scores ev = map label examples
    /\ length (scores ev) = length examples
    /\ batch_size ev = kw_batch_size kwargs
    /\ main_similarity ev = kw_main_similarity kwargs
    /\ name ev = kw_name kwargs
    /\ write_csv ev = kw_write_csv kwargs
    /\ precision ev = kw_precision kwargs
    /\ csv_file ev = derive_csv_file (kw_name kwargs) (kw_precision kwargs).
Proof.
  intros H. unfold from_input_examples.
  rewrite collect_examples_ok by assumption. cbn [app].
  unfold init. rewrite !length_map, Nat.eqb_refl. cbn [negb].
  eexists. split; [reflexivity|]. cbn.
  rewrite length_map. repeat split; reflexivity.
Qed.

Lemma from_input_examples_projects_witness :
  exists ev,
    from_input_examples
      [mkInputExample ["a"; "b"] 1%R; mkInputExample ["c"; "d"; "e"] 0%R]
      default_kwargs = Returned ev
    /\ sentences1 ev = ["a"; "c"] /\ sentences2 ev = ["b"; "d"].
Proof.
  destruct (from_input_examples_projects
              [mkInputExample ["a"; "b"] 1%R; mkInputExample ["c"; "d"; "e"] 0%R]
              default_kwargs) as (ev & H & H1 & H2 & _).
  - repeat constructor.
  - exists ev. split; [exact H|]. split; [exact H1 | exact H2].
Defined.

(** X2: the alternate constructor ends in [IndexError] exactly when some
    example has fewer than two texts, and it never ends in an exception of
    the constructor: the three lists it builds always have one length, so
    the length validation cannot fail on this path. *)
Theorem from_input_examples_errors (examples : list InputExample)
    (kwargs : InitKwargs) :
  (from_input_examples examples kwargs = RaisedIndexError <->
   Exists (fun ex => (length (texts ex) < 2)%nat) examples)
  /\ forall e, from_input_examples examples kwargs <> Raised e.
Proof.
  destruct (examples_all_or_short examples) as [Hall | Hshort].
  - destruct (from_input_examples_returns examples kwargs Hall) as (ev & Hev).
    rewrite Hev. split; [split|]; try discriminate.
    intros Hex. exfalso. apply Exists_exists in Hex. destruct Hex as (ex & Hin & Hlt).
    rewrite Forall_forall in Hall. specialize (Hall ex Hin). lia.
  - unfold from_input_examples. rewrite collect_examples_short by assumption.
    split; [split; auto | discriminate].
Qed.

Lemma from_input_examples_errors_witness :
  from_input_examples
    [mkInputExample ["a"; "b"] 1%R; mkInputExample ["c"] 0%R] default_kwargs
  = RaisedIndexError.
Proof.
  apply (from_input_examples_errors
           [mkInputExample ["a"; "b"] 1%R; mkInputExample ["c"] 0%R] default_kwargs).
  apply Exists_cons_tl, Exists_cons_hd. simpl. lia.
Defined.

End From_input_examples.

(** ** Repeated calls and the log file *)

Section Repeated_calls.

Local Open Scope list_scope.







End Repeated_calls.

(** ** The log file's path and the default selector *)

Section Path_and_selector.

Local Open Scope list_scope.

Lemma derive_csv_file_not_absolute (nm : string) (p : option Precision) :
  startswith_sep (derive_csv_file nm p) = false.
Proof. reflexivity. Qed.

(** X6: for an evaluator built by the constructor the log file always lies
    under the output path: the path is the output path, a separator unless
    the output path is empty or already ends in one, and the derived file
    name; the output path is never discarded, whatever the evaluator's
    name. *)
Theorem csv_path_under_output_path (ev : Evaluator) (dir : string) :
  constructed ev ->
  path_join dir (csv_file ev) =
  (dir ++ (if truthy dir && negb (endswith_sep dir) then "/" else "")
       ++ derive_csv_file (name ev) (precision ev))%string.
Proof.
  intros Hc. destruct (constructed_fields _ Hc) as (_ & _ & _ & ->).
  unfold path_join. rewrite derive_csv_file_not_absolute.
  destruct (truthy dir), (endswith_sep dir); reflexivity.
Qed.

Lemma csv_path_under_output_path_witness :
  path_join "/tmp/run" (csv_file (sample_evaluator PyNone (Some int8))) =
  "/tmp/run/MSE_similarity_evaluation_int8_results.csv".
Proof.
  rewrite (csv_path_under_output_path _ "/tmp/run" (sample_constructed PyNone (Some int8))).
  reflexivity.
Defined.

Lemma evaluate_mses_with_selector (model : Model) (sel : selector) (self : Evaluator) :
  evaluate_mses model (with_selector sel self) = evaluate_mses model self.
Proof. reflexivity. Qed.

(** X7: on the same data the default selector ([None]) never returns more
    than an explicit selector does, and what it returns is one of the four
    MSE values. *)
Theorem default_selector_lower_bound (model : Model) (output_path : option string)
    (epoch steps : Z) (w : World) (f : SimilarityFunction) (r : R) :
  main_similarity (this w) = Member f ->
  fst (call model output_path epoch steps w) = Ok r ->
  let w0 := {| this := with_selector PyNone (this w);
               files := files w; logged := logged w |} in
  let e := evaluate_mses model (this w) in
  exists r0,
    fst (call model output_path epoch steps w0) = Ok r0
    /\ (r0 <= r)%R
    /\ (r0 = eval_mse_cosine e \/ r0 = eval_mse_manhattan e
        \/ r0 = eval_mse_euclidean e \/ r0 = eval_mse_dot e).
Proof.
  intros Hsel Hr. cbv zeta. rewrite call_eq in *. cbn [fst this] in *.
  rewrite evaluate_mses_with_selector. rewrite Hsel in Hr.
  unfold selected_score in *. cbn [main_similarity with_selector].
  revert Hr.
  generalize (eval_mse_cosine (evaluate_mses model (this w))),
    (eval_mse_manhattan (evaluate_mses model (this w))),
    (eval_mse_euclidean (evaluate_mses model (this w))),
    (eval_mse_dot (evaluate_mses model (this w))).
  intros c m eu d Hr.
  eexists. split; [reflexivity|]. split.
  - pose proof (Rmin_l (Rmin (Rmin c m) eu) d).
    pose proof (Rmin_r (Rmin (Rmin c m) eu) d).
    pose proof (Rmin_l (Rmin c m) eu).
    pose proof (Rmin_r (Rmin c m) eu).
    pose proof (Rmin_l c m).
    pose proof (Rmin_r c m).
    destruct f; injection Hr as <-; lra.
  - unfold Rmin. repeat destruct (Rle_dec _ _); auto.
Qed.

Lemma default_selector_lower_bound_witness :
  exists r0,
    fst (call unit_model None (-1) (-1) (sample_world PyNone None)) = Ok r0
    /\ (r0 <= 0)%R.
Proof.
  destruct (default_selector_lower_bound unit_model None (-1) (-1)
              (sample_world (Member COSINE) None) COSINE 0%R eq_refl
              end_to_end_identical_unit_vectors)
    as (r0 & H0 & Hle & _).
  exists r0. split; [exact H0 | exact Hle].
Defined.

End Path_and_selector.

(** ** More on the metric arrays *)

Section Further_metrics.

Local Open Scope list_scope.
Local Open Scope R_scope.

Lemma zip_with_sym {A B : Type} (f : A -> A -> B) (a b : list A) :
  (forall x y, f x y = f y x) -> zip_with f a b = zip_with f b a.
Proof.
  intros Hf. revert b. induction a as [|x a IH]; intros [|y b]; cbn; try reflexivity.
  now rewrite Hf, IH.
Qed.

Lemma Rsum_square_sub_sym (a b : vector) :
  Rsum (np_square (np_sub a b)) = Rsum (np_square (np_sub b a)).
Proof.
  unfold np_square, np_sub. revert b.
  induction a as [|x a IH]; intros [|y b]; cbn [zip_with map]; try reflexivity.
  rewrite !Rsum_cons, IH. lra.
Qed.

Lemma cosine_distance_sym (x y : vector) : cosine_distance x y = cosine_distance y x.
Proof. unfold cosine_distance. now rewrite Rsum_square_sub_sym. Qed.

Lemma euclidean_distance_sym (x y : vector) :
  euclidean_distance x y = euclidean_distance y x.
Proof. unfold euclidean_distance. now rewrite Rsum_square_sub_sym. Qed.

Lemma manhattan_distance_sym (x y : vector) :
  manhattan_distance x y = manhattan_distance y x.
Proof.
  unfold manhattan_distance, np_sub. revert y.
  induction x as [|u x IH]; intros [|v y]; cbn [zip_with map]; try reflexivity.
  rewrite !Rsum_cons, IH, (Rabs_minus_sym u v). reflexivity.
Qed.

Lemma np_dot_sym (x y : vector) : np_dot x y = np_dot y x.
Proof. unfold np_dot. f_equal. apply zip_with_sym. intros; lra. Qed.

Lemma metrics_of_sym (embeddings1 embeddings2 : matrix) :
  metrics_of embeddings1 embeddings2 = metrics_of embeddings2 embeddings1.
Proof.
  unfold metrics_of, paired_cosine_distances, paired_manhattan_distances,
    paired_euclidean_distances.
  rewrite (zip_with_sym cosine_distance embeddings1 embeddings2 cosine_distance_sym).
  rewrite (zip_with_sym manhattan_distance embeddings1 embeddings2 manhattan_distance_sym).
  rewrite (zip_with_sym euclidean_distance embeddings1 embeddings2 euclidean_distance_sym).
  rewrite (zip_with_sym np_dot embeddings1 embeddings2 np_dot_sym).
  reflexivity.
Qed.

(** X8: the evaluation is symmetric in the two sentence lists: exchanging
    sentences1 and sentences2 leaves the four metric arrays, and so the four
    MSE values and the returned score, unchanged. *)
Theorem evaluation_symmetric (model : Model) (output_path : option string)
    (epoch steps : Z) (w : World) :
  let swapped := {| this := swap_sentences (this w);
                    files := files w; logged := logged w |} in
  metrics_of (embed model (this w) (sentences2 (this w)))
             (embed model (this w) (sentences1 (this w)))
  = metrics_of (embed model (this w) (sentences1 (this w)))
               (embed model (this w) (sentences2 (this w)))
  /\ evaluate_mses model (swap_sentences (this w)) = evaluate_mses model (this w)
  /\ fst (call model output_path epoch steps swapped)
     = fst (call model output_path epoch steps w).
Proof.
  cbv zeta.
  assert (He : evaluate_mses model (swap_sentences (this w))
               = evaluate_mses model (this w)).
  { unfold evaluate_mses.
    change (embed model (swap_sentences (this w)) (sentences1 (swap_sentences (this w))))
      with (embed model (this w) (sentences2 (this w))).
    change (embed model (swap_sentences (this w)) (sentences2 (swap_sentences (this w))))
      with (embed model (this w) (sentences1 (this w))).
    change (scores (swap_sentences (this w))) with (scores (this w)).
    now rewrite metrics_of_sym. }
  split; [apply metrics_of_sym|]. split; [exact He|].
  rewrite !call_eq. cbn [fst this]. rewrite He. reflexivity.
Qed.

Lemma Forall_zip_with_all {A B C : Type} (P : C -> Prop) (f : A -> B -> C)
    (a : list A) (b : list B) :
  (forall x y, P (f x y)) -> Forall P (zip_with f a b).
Proof.
  intros H. revert b. induction a as [|x a IH]; intros [|y b]; cbn;
    constructor; auto.
Qed.

Lemma Forall_map_all {A B : Type} (P : A -> Prop) (Q : B -> Prop) (f : A -> B)
    (l : list A) :
  (forall x, P x -> Q (f x)) -> Forall P l -> Forall Q (map f l).
Proof. intros H HP. induction HP; cbn; constructor; auto. Qed.

Lemma Rsum_square_sub_le (a b : vector) :
  Rsum (np_square (np_sub a b)) <= 2 * Rsum (np_square a) + 2 * Rsum (np_square b).
Proof.
  revert b. induction a as [|x a IH]; intros b.
  - change (np_square (np_sub [] b)) with (@nil R).
    change (np_square []) with (@nil R).
    rewrite Rsum_nil. pose proof (Rsum_square_nonneg b). lra.
  - destruct b as [|y b].
    + change (np_square (np_sub (x :: a) [])) with (@nil R).
      change (np_square []) with (@nil R).
      rewrite Rsum_nil. pose proof (Rsum_square_nonneg (x :: a)). lra.
    + specialize (IH b). unfold np_square, np_sub in *. cbn [zip_with map].
      rewrite !Rsum_cons.
      assert (H : (x - y) ^ 2 <= 2 * x ^ 2 + 2 * y ^ 2).
      { pose proof (pow2_ge_0 (x + y)). simpl in *. nra. }
      lra.
Qed.

Lemma Rsum_square_scaled (x : vector) (c : R) :
  c <> 0 ->
  Rsum (np_square (map (fun v => v / c) x)) = Rsum (np_square x) / (c * c).
Proof.
  intros Hc. unfold np_square.
  induction x as [|v x IH]; cbn [map].
  - rewrite Rsum_nil. field. exact Hc.
  - rewrite !Rsum_cons, IH. field. exact Hc.
Qed.

Lemma normalize_row_square_le_1 (x : vector) :
  Rsum (np_square (normalize_row x)) <= 1.
Proof.
  unfold normalize_row.
  destruct (Req_dec_T (l2_norm x) 0) as [E|N].
  - rewrite Rsum_square_scaled by lra.
    rewrite <- l2_norm_square, E. lra.
  - rewrite Rsum_square_scaled by exact N.
    rewrite <- l2_norm_square.
    replace (l2_norm x * l2_norm x / (l2_norm x * l2_norm x)) with 1
      by (field; exact N).
    lra.
Qed.

Lemma cosine_distance_le_2 (x y : vector) : cosine_distance x y <= 2.
Proof.
  unfold cosine_distance.
  pose proof (Rsum_square_sub_le (normalize_row x) (normalize_row y)).
  pose proof (normalize_row_square_le_1 x).
  pose proof (normalize_row_square_le_1 y).
  lra.
Qed.

Lemma distance_metrics_nonpos (embeddings1 embeddings2 : matrix) :
  Forall (fun v => v <= 0) (manhattan_distances (metrics_of embeddings1 embeddings2))
  /\ Forall (fun v => v <= 0) (euclidean_distances (metrics_of embeddings1 embeddings2)).
Proof.
  unfold metrics_of, np_neg, paired_manhattan_distances, paired_euclidean_distances.
  cbn [manhattan_distances euclidean_distances]. split.
  - apply (Forall_map_all (fun d => 0 <= d)); [intros d Hd; lra|].
    apply Forall_zip_with_all. intros x y. apply manhattan_distance_nonneg.
  - apply (Forall_map_all (fun d => 0 <= d)); [intros d Hd; lra|].
    apply Forall_zip_with_all. intros x y. apply euclidean_distance_nonneg.
Qed.

(** X9: whatever the two embedding batches are, every cosine score lies
    between -1 and 1, and every Manhattan and Euclidean metric value is at
    most 0. *)
Theorem metric_ranges (embeddings1 embeddings2 : matrix) :
  let m := metrics_of embeddings1 embeddings2 in
  Forall (fun v => -1 <= v <= 1) (cosine_scores m)
  /\ Forall (fun v => v <= 0) (manhattan_distances m)
  /\ Forall (fun v => v <= 0) (euclidean_distances m).
Proof.
  cbv zeta. split; [|apply distance_metrics_nonpos].
  unfold metrics_of, np_rsub1, paired_cosine_distances. cbn [cosine_scores].
  apply (Forall_map_all (fun d => 0 <= d <= 2)); [intros d Hd; lra|].
  apply Forall_zip_with_all. intros x y.
  split; [apply cosine_distance_nonneg | apply cosine_distance_le_2].
Qed.

End Further_metrics.

(** ** Packed modes, exact fits and lower bounds *)

Section Packed_and_bounds.

Local Open Scope list_scope.
Local Open Scope R_scope.

Lemma unpacked_rows_are_bits (a : list (list Z)) :
  Forall (Forall is_bit) (map (map IZR) (np_unpackbits a)).
Proof.
  unfold np_unpackbits. induction a as [|row a IH]; cbn [map]; constructor; auto.
  apply (Forall_map_all (fun z => z = 0%Z \/ z = 1%Z)); [|apply unpack_row_01].
  intros z [-> | ->]; [left | right]; reflexivity.
Qed.

Lemma embed_packed_bits (model : Model) (self : Evaluator) (ss : list string) :
  precision self = Some binary \/ precision self = Some ubinary ->
  Forall (Forall is_bit) (embed model self ss).
Proof.
  intros [Hp | Hp]; unfold embed; rewrite Hp; apply unpacked_rows_are_bits.
Qed.

Lemma bits_abs_is_square (x y : vector) :
  Forall is_bit x -> Forall is_bit y ->
  map Rabs (np_sub x y) = np_square (np_sub x y).
Proof.
  intros Hx. revert y. unfold np_square, np_sub.
  induction Hx as [|u x Hu _ IH]; intros y Hy; [reflexivity|].
  destruct Hy as [|v y Hv Hy]; [reflexivity|]. cbn [zip_with map].
  rewrite (IH y Hy). f_equal.
  destruct Hu as [-> | ->], Hv as [-> | ->].
  - replace (0 - 0) with 0 by lra. rewrite Rabs_R0. lra.
  - replace (0 - 1) with (- (1)) by lra. rewrite Rabs_Ropp, Rabs_R1. lra.
  - replace (1 - 0) with 1 by lra. rewrite Rabs_R1. lra.
  - replace (1 - 1) with 0 by lra. rewrite Rabs_R0. lra.
Qed.

Lemma bits_euclidean_manhattan (x y : vector) :
  Forall is_bit x -> Forall is_bit y ->
  euclidean_distance x y = sqrt (manhattan_distance x y).
Proof.
  intros Hx Hy. unfold manhattan_distance, euclidean_distance.
  now rewrite bits_abs_is_square.
Qed.

(** X10: in binary and ubinary mode every entry of the arrays the metrics see
    is 0 or 1, so both distances of a pair are fixed by its number of
    differing bits, which the Manhattan distance is: at every index the
    Euclidean metric is minus the square root of minus the Manhattan
    metric. *)
Theorem packed_euclidean_is_root_of_manhattan (model : Model) (self : Evaluator) :
  precision self = Some binary \/ precision self = Some ubinary ->
  let embeddings1 := embed model self (sentences1 self) in
  let embeddings2 := embed model self (sentences2 self) in
  let m := metrics_of embeddings1 embeddings2 in
  Forall (Forall (fun v => v = 0 \/ v = 1)) embeddings1
  /\ Forall (Forall (fun v => v = 0 \/ v = 1)) embeddings2
  /\ forall (i : nat) (mv ev : R),
       manhattan_distances m !! i = Some mv ->
       euclidean_distances m !! i = Some ev ->
       ev = - sqrt (- mv).
Proof.
  intros Hp. cbv zeta.
  pose proof (embed_packed_bits model self (sentences1 self) Hp) as H1.
  pose proof (embed_packed_bits model self (sentences2 self) Hp) as H2.
  split; [exact H1|]. split; [exact H2|].
  intros i mv ev. unfold metrics_of, np_neg, paired_manhattan_distances,
    paired_euclidean_distances.
  cbn [manhattan_distances euclidean_distances].
  rewrite !lookup_map, !lookup_zip_with.
  destruct (embed model self (sentences1 self) !! i) as [x|] eqn:Ex; [|discriminate].
  destruct (embed model self (sentences2 self) !! i) as [y|] eqn:Ey; [|discriminate].
  cbn. intros Hm He. injection Hm as <-. injection He as <-.
  rewrite (bits_euclidean_manhattan x y).
  - now rewrite Ropp_involutive.
  - rewrite Forall_forall in H1. apply H1. eapply list_elem_of_lookup_2. exact Ex.
  - rewrite Forall_forall in H2. apply H2. eapply list_elem_of_lookup_2. exact Ey.
Qed.

Lemma packed_euclidean_is_root_of_manhattan_witness :
  Forall (Forall (fun v => v = 0 \/ v = 1))
         (embed unit_model (sample_evaluator PyNone (Some ubinary)) ["a"; "a"]).
Proof.
  apply (packed_euclidean_is_root_of_manhattan unit_model
           (sample_evaluator PyNone (Some ubinary))).
  right. reflexivity.
Defined.

Lemma Rsum_square_zero (v : vector) :
  Rsum (np_square v) = 0 -> Forall (fun x => x = 0) v.
Proof.
  induction v as [|x v IH]; intros H; constructor.
  - change (np_square (x :: v)) with (x ^ 2 :: np_square v) in H.
    rewrite Rsum_cons in H.
    pose proof (Rsum_square_nonneg v). pose proof (pow2_ge_0 x).
    assert (Hx : x ^ 2 = 0) by lra. simpl in Hx. nra.
  - apply IH.
    change (np_square (x :: v)) with (x ^ 2 :: np_square v) in H.
    rewrite Rsum_cons in H.
    pose proof (Rsum_square_nonneg v). pose proof (pow2_ge_0 x). lra.
Qed.

Lemma np_sub_zero (a b : vector) :
  length a = length b -> Forall (fun x => x = 0) (np_sub a b) -> a = b.
Proof.
  unfold np_sub. revert b.
  induction a as [|x a IH]; intros [|y b] Hlen H; try discriminate; [reflexivity|].
  cbn [zip_with] in H. inversion H as [|? ? Hxy Hrest]; subst.
  injection Hlen as Hlen. rewrite (IH b Hlen Hrest).
  f_equal. lra.
Qed.

Lemma mse_zero_iff (a labels : vector) (n : nat) :
  (1 <= n)%nat -> length a = n -> length labels = n ->
  mse a labels = 0 <-> a = labels.
Proof.
  intros Hn Ha Hl. split.
  - intros H. unfold mse, np_mean in H.
    assert (Hlen : length (np_square (np_sub a labels)) = n).
    { unfold np_square, np_sub. rewrite length_map.
      now apply length_zip_with_same. }
    rewrite Hlen in H.
    assert (Hpos : 0 < INR n) by (apply lt_0_INR; lia).
    assert (Hs : Rsum (np_square (np_sub a labels)) = 0).
    { unfold Rdiv in H. apply Rmult_integral in H. destruct H as [H|H]; [exact H|].
      pose proof (Rinv_0_lt_compat _ Hpos). lra. }
    apply np_sub_zero; [congruence|]. now apply Rsum_square_zero.
  - intros ->. unfold mse, np_mean. rewrite Rsum_square_sub_self.
    unfold Rdiv. apply Rmult_0_l.
Qed.

(** X11: for N >= 1 pairs and batches of N rows, an MSE value is 0 exactly
    when its metric array equals the gold scores at every pair. *)
Theorem mse_zero_exact_fit (model : Model) (self : Evaluator) (n : nat) :
  let embeddings1 := embed model self (sentences1 self) in
  let embeddings2 := embed model self (sentences2 self) in
  let m := metrics_of embeddings1 embeddings2 in
  let e := evaluate_mses model self in
  (1 <= n)%nat ->
  length (scores self) = n -> length embeddings1 = n -> length embeddings2 = n ->
  (eval_mse_cosine e = 0 <-> cosine_scores m = scores self)
  /\ (eval_mse_manhattan e = 0 <-> manhattan_distances m = scores self)
  /\ (eval_mse_euclidean e = 0 <-> euclidean_distances m = scores self)
  /\ (eval_mse_dot e = 0 <-> dot_products m = scores self).
Proof.
  intros E1 E2 m e Hn Hl H1 H2.
  unfold e, evaluate_mses, mses_of. fold E1 E2 m.
  cbn [eval_mse_cosine eval_mse_manhattan eval_mse_euclidean eval_mse_dot].
  repeat split; try (apply (mse_zero_iff _ _ n); try assumption);
    try (intros ->; unfold mse, np_mean; rewrite Rsum_square_sub_self;
         unfold Rdiv; apply Rmult_0_l);
    unfold m, metrics_of, np_rsub1, np_neg, paired_cosine_distances,
      paired_manhattan_distances, paired_euclidean_distances;
    cbn [cosine_scores manhattan_distances euclidean_distances dot_products];
    rewrite ?length_map; now apply length_zip_with_same.
Qed.

Lemma mse_zero_exact_fit_witness :
  eval_mse_cosine (evaluate_mses unit_model (sample_evaluator PyNone None)) = 0.
Proof.
  destruct (mse_zero_exact_fit unit_model (sample_evaluator PyNone None) 2)
    as ([_ H] & _); try reflexivity; [simpl; lia|].
  apply H.
  unfold metrics_of, embed, unit_model, paired_cosine_distances, np_rsub1.
  cbn [cosine_scores sentences1 sentences2 scores precision batch_size
       show_progress_bar sample_evaluator encode map zip_with].
  rewrite cosine_distance_self. f_equal; [lra | f_equal; lra].
Defined.

End Packed_and_bounds.

(** ** Shapes, non-negative gold scores, identical sentences *)

Section Shapes_and_bounds.

Local Open Scope list_scope.
Local Open Scope R_scope.

Lemma embed_length (model : Model) (self : Evaluator) (ss : list string) :
  (forall (p : Precision) (norm : bool),
     length (encode model ss (batch_size self) (show_progress_bar self) p norm)
     = length ss) ->
  length (embed model self ss) = length ss.
Proof.
  intros H. unfold embed. destruct (precision self) as [p|]; [|exact (H float32 false)].
  specialize (H p (truthy (precision_str p))).
  destruct p; cbn [correct_binary unpack_packed as_float]; try exact H;
    unfold np_unpackbits, add128_uint8; now rewrite ?length_map.
Qed.

(** X12: for an evaluator built by the constructor and a model that returns
    one row per sentence, in every precision mode each of the four metric
    arrays has exactly one entry per pair, as many as there are gold scores:
    the precision handling changes the width of the rows, never their
    number. *)
Theorem metric_arrays_one_entry_per_pair (model : Model) (self : Evaluator) :
  constructed self ->
  (forall (ss : list string) (p : Precision) (norm : bool),
     length (encode model ss (batch_size self) (show_progress_bar self) p norm)
     = length ss) ->
  let embeddings1 := embed model self (sentences1 self) in
  let embeddings2 := embed model self (sentences2 self) in
  let m := metrics_of embeddings1 embeddings2 in
  let n := length (scores self) in
  length embeddings1 = n /\ length embeddings2 = n
  /\ length (cosine_scores m) = n /\ length (manhattan_distances m) = n
  /\ length (euclidean_distances m) = n /\ length (dot_products m) = n.
Proof.
  intros Hc Hrows. cbv zeta.
  destruct (constructed_fields _ Hc) as (H12 & H1s & _).
  assert (L1 : length (embed model self (sentences1 self)) = length (scores self)).
  { rewrite embed_length by (intros; apply Hrows). exact H1s. }
  assert (L2 : length (embed model self (sentences2 self)) = length (scores self)).
  { rewrite embed_length by (intros; apply Hrows). congruence. }
  unfold metrics_of, np_rsub1, np_neg, paired_cosine_distances,
    paired_manhattan_distances, paired_euclidean_distances.
  cbn [cosine_scores manhattan_distances euclidean_distances dot_products].
  rewrite !length_map.
  repeat split; try assumption; now apply length_zip_with_same.
Qed.

Lemma metric_arrays_one_entry_per_pair_witness :
  length (dot_products
            (metrics_of
               (embed unit_model (sample_evaluator PyNone (Some binary)) ["a"; "a"])
               (embed unit_model (sample_evaluator PyNone (Some binary)) ["a"; "a"])))
  = 2%nat.
Proof.
  apply (metric_arrays_one_entry_per_pair unit_model
           (sample_evaluator PyNone (Some binary))
           (sample_constructed PyNone (Some binary))).
  intros ss p norm. apply length_map.
Defined.

Lemma Rsum_square_shifted (a labels : vector) :
  length a = length labels ->
  Forall (fun v => v <= 0) a -> Forall (fun s => 0 <= s) labels ->
  Rsum (np_square labels) <= Rsum (np_square (np_sub a labels)).
Proof.
  unfold np_square, np_sub. intros Hlen Ha. revert labels Hlen.
  induction Ha as [|v a Hv _ IH]; intros [|s labels] Hlen Hl; try discriminate.
  - cbn. lra.
  - injection Hlen as Hlen. inversion Hl as [|? ? Hs Hl']; subst.
    cbn [zip_with map]. rewrite !Rsum_cons.
    specialize (IH labels Hlen Hl').
    assert (s ^ 2 <= (v - s) ^ 2) by (simpl; nra). lra.
Qed.

(** X13: because the Manhattan and Euclidean metrics are never positive,
    against gold scores that are all non-negative their MSE is at least the
    mean of the squared gold scores (for N >= 1 pairs and batches of N
    rows). *)
Theorem distance_mse_lower_bound (model : Model) (self : Evaluator) (n : nat) :
  let embeddings1 := embed model self (sentences1 self) in
  let embeddings2 := embed model self (sentences2 self) in
  let e := evaluate_mses model self in
  (1 <= n)%nat ->
  length (scores self) = n -> length embeddings1 = n -> length embeddings2 = n ->
  Forall (fun s => 0 <= s) (scores self) ->
  np_mean (np_square (scores self)) <= eval_mse_manhattan e
  /\ np_mean (np_square (scores self)) <= eval_mse_euclidean e.
Proof.
  intros E1 E2 e Hn Hl H1 H2 Hs.
  destruct (distance_metrics_nonpos E1 E2) as (Hm & He).
  assert (Lm : length (manhattan_distances (metrics_of E1 E2)) = n).
  { unfold metrics_of, np_neg, paired_manhattan_distances.
    cbn [manhattan_distances]. rewrite length_map.
    now apply length_zip_with_same. }
  assert (Le : length (euclidean_distances (metrics_of E1 E2)) = n).
  { unfold metrics_of, np_neg, paired_euclidean_distances.
    cbn [euclidean_distances]. rewrite length_map.
    now apply length_zip_with_same. }
  assert (Hpos : 0 < / INR n) by (apply Rinv_0_lt_compat, lt_0_INR; lia).
  assert (Hgen : forall a : vector, length a = n -> Forall (fun v => v <= 0) a ->
            np_mean (np_square (scores self)) <= mse a (scores self)).
  { intros a La Ha. unfold mse, np_mean, Rdiv.
    replace (length (np_square (scores self))) with n
      by (unfold np_square; now rewrite length_map).
    replace (length (np_square (np_sub a (scores self)))) with n
      by (unfold np_square, np_sub; rewrite length_map;
          symmetry; now apply length_zip_with_same).
    apply Rmult_le_compat_r; [lra|].
    apply Rsum_square_shifted; [congruence | assumption | assumption]. }
  unfold e, evaluate_mses, mses_of. fold E1 E2.
  cbn [eval_mse_manhattan eval_mse_euclidean].
  split; apply Hgen; assumption.
Qed.

Lemma distance_mse_lower_bound_witness :
  np_mean (np_square [1; 1])
  <= eval_mse_manhattan (evaluate_mses unit_model (sample_evaluator PyNone None)).
Proof.
  apply (distance_mse_lower_bound unit_model (sample_evaluator PyNone None) 2);
    try reflexivity.
  - simpl. lia.
  - repeat constructor; lra.
Defined.

Lemma zip_with_diag {A B : Type} (f : A -> A -> B) (l : list A) :
  zip_with f l l = map (fun x => f x x) l.
Proof. induction l as [|x l IH]; cbn; [reflexivity | now rewrite IH]. Qed.

(** X14: when the two sentence lists are the same list, both sentences of
    every pair get the same embedding, so every cosine score is 1 and every
    Manhattan and Euclidean metric value is 0; the Manhattan and Euclidean
    MSE values then coincide. *)
Theorem identical_sentences_metrics (model : Model) (self : Evaluator) :
  sentences1 self = sentences2 self ->
  let m := metrics_of (embed model self (sentences1 self))
                      (embed model self (sentences2 self)) in
  Forall (fun v => v = 1) (cosine_scores m)
  /\ Forall (fun v => v = 0) (manhattan_distances m)
  /\ Forall (fun v => v = 0) (euclidean_distances m)
  /\ eval_mse_manhattan (evaluate_mses model self)
     = eval_mse_euclidean (evaluate_mses model self).
Proof.
  intros Hs. cbv zeta. unfold evaluate_mses, mses_of.
  cbn [eval_mse_manhattan eval_mse_euclidean].
  rewrite <- Hs.
  unfold metrics_of, np_rsub1, np_neg, paired_cosine_distances,
    paired_manhattan_distances, paired_euclidean_distances.
  cbn [cosine_scores manhattan_distances euclidean_distances].
  rewrite !zip_with_diag, !map_map.
  assert (Hall : forall (g : vector -> R) (c : R) (l : matrix),
            (forall x, g x = c) -> Forall (fun v => v = c) (map g l)).
  { intros g c l Hg. induction l; cbn; constructor; auto. }
  split; [|split; [|split]].
  - apply Hall. intros x. rewrite cosine_distance_self. lra.
  - apply Hall. intros x. rewrite manhattan_distance_self. lra.
  - apply Hall. intros x. rewrite euclidean_distance_self. lra.
  - f_equal. apply map_ext. intros x.
    now rewrite manhattan_distance_self, euclidean_distance_self.
Qed.

Lemma identical_sentences_metrics_witness :
  eval_mse_manhattan (evaluate_mses unit_model (sample_evaluator PyNone (Some int8)))
  = eval_mse_euclidean (evaluate_mses unit_model (sample_evaluator PyNone (Some int8))).
Proof.
  apply (identical_sentences_metrics unit_model (sample_evaluator PyNone (Some int8))).
  reflexivity.
Defined.

End Shapes_and_bounds.

(** ** Unpacking loses nothing *)

Section Unpack_round_trip.

Local Open Scope list_scope.

Lemma pack_byte_bits (b : Z) :
  (0 <= b < 256)%Z -> pack_row (byte_bits b) = [b].
Proof.
  intros Hb. rewrite <- (Z2Nat.id b) by lia.
  assert (Hn : (Z.to_nat b < 256)%nat) by lia.
  generalize dependent (Z.to_nat b). clear. intros n Hn.
  do 256 (destruct n as [|n]; [reflexivity|]). lia.
Qed.

Lemma pack_row_app_byte (b : Z) (bits : list Z) :
  pack_row (byte_bits b ++ bits) = pack_row (byte_bits b) ++ pack_row bits.
Proof. reflexivity. Qed.

Lemma pack_unpack_row (row : list Z) :
  Forall (fun b => (0 <= b < 256)%Z) row ->
  pack_row (concat (map byte_bits row)) = row.
Proof.
  induction 1 as [|b row Hb _ IH]; [reflexivity|].
  cbn [map concat]. rewrite pack_row_app_byte, pack_byte_bits by exact Hb.
  cbn [app]. now rewrite IH.
Qed.

(** X15: unpacking loses nothing.  Regrouping the unpacked bits of an array
    of unsigned bytes eight at a time, most significant bit first, gives the
    array back; in binary mode, where the signed bytes are first shifted by
    128, it gives every byte plus 128. *)
Theorem unpack_is_lossless (a : list (list Z)) :
  (Forall (Forall (fun b => (0 <= b < 256)%Z)) a ->
   map pack_row (np_unpackbits a) = a)
  /\ (Forall (Forall (fun b => (-128 <= b < 128)%Z)) a ->
      map pack_row (np_unpackbits (add128_uint8 a))
      = map (map (fun b => (b + 128)%Z)) a).
Proof.
  assert (Hu : forall a' : list (list Z),
            Forall (Forall (fun b => (0 <= b < 256)%Z)) a' ->
            map pack_row (np_unpackbits a') = a').
  { intros a' H. unfold np_unpackbits. rewrite map_map.
    induction H as [|row a' Hrow _ IH]; [reflexivity|].
    cbn [map]. now rewrite pack_unpack_row, IH. }
  split; [apply Hu|].
  intros H.
  assert (Hs : add128_uint8 a = map (map (fun b => (b + 128)%Z)) a).
  { unfold add128_uint8. induction H as [|row a' Hrow _ IH]; [reflexivity|].
    cbn [map]. rewrite IH. f_equal.
    induction Hrow as [|b row Hb _ IHrow]; [reflexivity|].
    cbn [map]. now rewrite IHrow, add128_int8. }
  rewrite Hs. apply Hu. clear Hs Hu.
  induction H as [|row a' Hrow _ IH]; cbn [map]; [constructor|].
  constructor; [|exact IH].
  induction Hrow as [|b row Hb _ IHrow]; cbn [map]; [constructor|].
  constructor; [lia | exact IHrow].
Qed.

Lemma unpack_is_lossless_witness :
  map pack_row (np_unpackbits [[0; 5; 255]%Z]) = [[0; 5; 255]%Z]
  /\ map pack_row (np_unpackbits (add128_uint8 [[-128; -1; 127]%Z]))
     = [[0; 127; 255]%Z].
Proof.
  split.
  - apply (unpack_is_lossless [[0; 5; 255]%Z]).
    repeat constructor; lia.
  - apply (unpack_is_lossless [[-128; -1; 127]%Z]).
    repeat constructor; lia.
Defined.

End Unpack_round_trip.

(** * The call with dtypes and input validation *)

Section Checked_call.

Local Open Scope list_scope.

Lemma embeddings_astype_float (model : Model) (self : Evaluator) (ss : list string) :
  astype_float (embeddings model self ss) = embed model self ss.
Proof.
  unfold embeddings, embed. destruct (precision self) as [[]|]; reflexivity.
Qed.

Lemma embeddings_float (model : Model) (self : Evaluator) (ss : list string) :
  precision self = None \/ precision self = Some float32 ->
  embeddings model self ss = float_array (embed model self ss).
Proof. intros [H | H]; unfold embeddings, embed; rewrite H; reflexivity. Qed.

Lemma metrics_of_arrays_float (rows1 rows2 : matrix) :
  metrics_of_arrays (float_array rows1) (float_array rows2) = metrics_of rows1 rows2.
Proof. reflexivity. Qed.

(** The three scikit-learn metrics do not depend on the dtype. *)
Lemma metrics_of_arrays_distances (a1 a2 : array) :
  cosine_scores (metrics_of_arrays a1 a2)
    = cosine_scores (metrics_of (astype_float a1) (astype_float a2))
  /\ manhattan_distances (metrics_of_arrays a1 a2)
    = manhattan_distances (metrics_of (astype_float a1) (astype_float a2))
  /\ euclidean_distances (metrics_of_arrays a1 a2)
    = euclidean_distances (metrics_of (astype_float a1) (astype_float a2)).
Proof. repeat split. Qed.

#[local] Arguments mses_of : simpl never.
#[local] Arguments check_paired_arrays : simpl never.

(** One checked call, as a function from world to result and world. *)
Lemma call_checked_eq (model : Model) (output_path : option string)
    (epoch steps : Z) (w : World) :
  call_checked model output_path epoch steps w =
  let a1 := embeddings model (this w) (sentences1 (this w)) in
  let a2 := embeddings model (this w) (sentences2 (this w)) in
  match check_paired_arrays a1 a2 with
  | Raise err =>
      (Raise err,
       {| this := this w; files := files w;
          logged := logged w ++ [announcement (this w) epoch steps] |})
  | Ok _ =>
      let e := mses_of (metrics_of_arrays a1 a2) (scores (this w)) in
      (selected_score (main_similarity (this w)) e,
       {| this := this w;
          files := persist (this w) output_path (data_row epoch steps e) (files w);
          logged := logged w ++ log_lines (this w) epoch steps e |})
  end.
Proof.
  unfold call_checked, persist, log_lines, announcement.
  unfold mbind, M_bind, get_self, logger_info. cbn.
  destruct (check_paired_arrays _ _) as [[]|err]; [|reflexivity].
  generalize (mses_of
                (metrics_of_arrays (embeddings model (this w) (sentences1 (this w)))
                                   (embeddings model (this w) (sentences2 (this w))))
                (scores (this w))).
  intros e. cbn.
  destruct output_path as [dir|]; cbn.
  - destruct (write_csv (this w)); cbn.
    + unfold isfile, open_, writerow.
      destruct (files w !! path_join dir (csv_file (this w))) as [rows|] eqn:E;
        cbn; rewrite ?bool_decide_eq_true_2, ?bool_decide_eq_false_2
          by (rewrite ?E; eauto using is_Some_None); cbn;
        rewrite select_branch; cbn;
        rewrite ?lookup_insert_eq, ?insert_insert_eq; cbn;
        now rewrite <- !app_assoc.
    + rewrite select_branch; cbn. now rewrite <- !app_assoc.
  - rewrite select_branch; cbn. now rewrite <- !app_assoc.
Qed.

(** On floating-point arrays that pass validation the checked call is the
    call of the exact-arithmetic model. *)
Lemma call_checked_float (model : Model) (output_path : option string)
    (epoch steps : Z) (w : World) :
  precision (this w) = None \/ precision (this w) = Some float32 ->
  check_paired_arrays (embeddings model (this w) (sentences1 (this w)))
                      (embeddings model (this w) (sentences2 (this w))) = Ok tt ->
  call_checked model output_path epoch steps w = call model output_path epoch steps w.
Proof.
  intros Hp Hc. rewrite call_checked_eq, call_eq. cbv zeta. rewrite Hc.
  rewrite !(embeddings_float _ _ _ Hp), metrics_of_arrays_float. reflexivity.
Qed.

End Checked_call.

(** ** The dot product in the quantized modes *)

Section Quantized_dot.

Local Open Scope list_scope.
Local Open Scope R_scope.

(** C3 (code defect): the claim asks for the dot product of the two
    embeddings.  In int8 mode, for one pair whose two embeddings are both
    the row [100], the dot product is 10000, but line 149 stores it as an
    8-bit integer: the dot metric is 16, and with a gold score of 10000 the
    call returns the MSE 99680256 instead of 0.  The same pair in the
    floating mode gives the dot metric 10000.  In ubinary mode two rows
    of 32 bytes 255 unpack to 256 common one-bits and the dot metric is 0. *)
Theorem quantized_dot_product_wraps :
  let self := hundred_evaluator (Some int8) in
  let w := {| this := self; files := ∅; logged := [] |} in
  let ones := np_unpackbits [repeat 255%Z 32] in
  embeddings hundred_model self (sentences1 self) = int8_array [[100%Z]]
  /\ embeddings hundred_model self (sentences2 self) = int8_array [[100%Z]]
  /\ Z_dot [100%Z] [100%Z] = 10000%Z
  /\ dot_products (metrics_of_arrays (int8_array [[100%Z]]) (int8_array [[100%Z]]))
     = [16]
  /\ dot_products (metrics_of_arrays (float_array [[100]]) (float_array [[100]]))
     = [100 * 100 + 0]
  /\ fst (call_checked hundred_model None (-1) (-1) w) = Ok 99680256
  /\ (exists row, ones = [row] /\ Z_dot row row = 256%Z)
  /\ dot_products (metrics_of_arrays (uint8_array ones) (uint8_array ones)) = [0].
Proof.
  cbv zeta. repeat split; try reflexivity.
  - rewrite call_checked_eq. cbv zeta. cbn [this files logged].
    change (embeddings hundred_model (hundred_evaluator (Some int8))
              (sentences1 (hundred_evaluator (Some int8))))
      with (int8_array [[100%Z]]).
    change (embeddings hundred_model (hundred_evaluator (Some int8))
              (sentences2 (hundred_evaluator (Some int8))))
      with (int8_array [[100%Z]]).
    change (check_paired_arrays (int8_array [[100%Z]]) (int8_array [[100%Z]]))
      with (@Ok unit tt).
    cbv iota beta. cbn [fst]. unfold selected_score.
    cbn [main_similarity hundred_evaluator]. f_equal.
    unfold mses_of. cbn [eval_mse_dot scores hundred_evaluator].
    change (dot_products (metrics_of_arrays (int8_array [[100%Z]]) (int8_array [[100%Z]])))
      with [IZR 16].
    unfold mse, np_mean, np_square, np_sub. cbn [zip_with map length].
    rewrite Rsum_cons, Rsum_nil. simpl. lra.
  - eexists. split; reflexivity.
Qed.

(** X16: at every pair index the cosine score is one minus half the squared
    distance of the two rows scaled to unit length (the cosine of their
    angle, for non-zero rows of one length); the Manhattan and Euclidean
    metrics are the negated L1 and L2 distances; the dot metric is the dot
    product for floating-point arrays and the dot product reduced to 8 bits
    for int8 and uint8 arrays; a distance-derived metric does not increase
    when its raw distance grows. *)
Theorem metric_arrays_per_pair (a1 a2 : array) (i : nat) (x y : vector) :
  astype_float a1 !! i = Some x -> astype_float a2 !! i = Some y ->
  let m := metrics_of_arrays a1 a2 in
  let sum := fun v : vector => foldr Rplus 0 v in
  let norm := fun v : vector => sqrt (sum (map (fun c => c ^ 2) v)) in
  let unit := fun v : vector =>
    map (fun c => c / (if Req_dec_T (norm v) 0 then 1 else norm v)) v in
  let l1 := fun u v : vector => sum (map Rabs (zip_with Rminus u v)) in
  let l2 := fun u v : vector => sqrt (sum (map (fun d => d ^ 2) (zip_with Rminus u v))) in
  let cosd := fun u v : vector =>
    / 2 * sum (map (fun d => d ^ 2) (zip_with Rminus (unit u) (unit v))) in
  cosine_scores m !! i = Some (1 - cosd x y)
  /\ (length x = length y -> norm x <> 0 -> norm y <> 0 ->
      cosine_scores m !! i = Some (sum (zip_with Rmult x y) / (norm x * norm y)))
  /\ manhattan_distances m !! i = Some (- l1 x y)
  /\ euclidean_distances m !! i = Some (- l2 x y)
  /\ (forall rows1 rows2, a1 = float_array rows1 -> a2 = float_array rows2 ->
      dot_products m !! i = Some (sum (zip_with Rmult x y)))
  /\ (forall rows1 rows2 (u v : list Z),
        a1 = int8_array rows1 -> a2 = int8_array rows2 ->
        rows1 !! i = Some u -> rows2 !! i = Some v ->
        dot_products m !! i =
        Some (IZR ((foldr Z.add 0%Z (zip_with Z.mul u v) + 128) mod 256 - 128)))
  /\ (forall rows1 rows2 (u v : list Z),
        a1 = uint8_array rows1 -> a2 = uint8_array rows2 ->
        rows1 !! i = Some u -> rows2 !! i = Some v ->
        dot_products m !! i =
        Some (IZR (foldr Z.add 0%Z (zip_with Z.mul u v) mod 256)))
  /\ (forall (j : nat) (x' y' : vector),
        astype_float a1 !! j = Some x' -> astype_float a2 !! j = Some y' ->
        (l1 x y <= l1 x' y' ->
         nth j (manhattan_distances m) 0 <= nth i (manhattan_distances m) 0)
        /\ (l2 x y <= l2 x' y' ->
            nth j (euclidean_distances m) 0 <= nth i (euclidean_distances m) 0)
        /\ (cosd x y <= cosd x' y' ->
            nth j (cosine_scores m) 0 <= nth i (cosine_scores m) 0)).
Proof.
  intros Hx Hy m sum norm unit l1 l2 cosd.
  assert (Hlk : forall (j : nat) (u v : vector),
            astype_float a1 !! j = Some u -> astype_float a2 !! j = Some v ->
            cosine_scores m !! j = Some (1 - cosd u v)
            /\ manhattan_distances m !! j = Some (- l1 u v)
            /\ euclidean_distances m !! j = Some (- l2 u v)).
  { intros j u v Hu Hv.
    unfold m, metrics_of_arrays, np_rsub1, np_neg, paired_cosine_distances,
      paired_manhattan_distances, paired_euclidean_distances.
    cbn [cosine_scores manhattan_distances euclidean_distances].
    rewrite !lookup_map, !lookup_zip_with, Hu, Hv. cbn. repeat split. }
  destruct (Hlk i x y Hx Hy) as (Hc & Hm & He).
  split; [exact Hc|]. split.
  { intros Hlen Hnx Hny. rewrite Hc. f_equal.
    apply (cosine_similarity_formula x y Hlen Hnx Hny). }
  split; [exact Hm|]. split; [exact He|]. split.
  { intros rows1 rows2 -> ->. cbn in Hx, Hy. unfold m. cbn.
    rewrite lookup_zip_with, Hx, Hy. reflexivity. }
  split.
  { intros rows1 rows2 u v -> -> Hu Hv. unfold m. cbn.
    rewrite lookup_zip_with, Hu, Hv. reflexivity. }
  split.
  { intros rows1 rows2 u v -> -> Hu Hv. unfold m. cbn.
    rewrite lookup_zip_with, Hu, Hv. reflexivity. }
  intros j x' y' Hx' Hy'.
  destruct (Hlk j x' y' Hx' Hy') as (Hc' & Hm' & He').
  rewrite (lookup_nth _ _ _ 0 Hc), (lookup_nth _ _ _ 0 Hm), (lookup_nth _ _ _ 0 He).
  rewrite (lookup_nth _ _ _ 0 Hc'), (lookup_nth _ _ _ 0 Hm'), (lookup_nth _ _ _ 0 He').
  repeat split; intros; lra.
Qed.

Lemma metric_arrays_per_pair_witness :
  let m := metrics_of_arrays (int8_array [[100%Z]; [3%Z]]) (int8_array [[100%Z]; [4%Z]]) in
  dot_products m !! 0%nat = Some 16
  /\ manhattan_distances m !! 1%nat = Some (- Rsum (map Rabs [3 - 4])).
Proof.
  intros m. split.
  - destruct (metric_arrays_per_pair (int8_array [[100%Z]; [3%Z]])
                (int8_array [[100%Z]; [4%Z]]) 0 [100] [100] eq_refl eq_refl)
      as (_ & _ & _ & _ & _ & H & _).
    apply (H _ _ [100%Z] [100%Z] eq_refl eq_refl eq_refl eq_refl).
  - destruct (metric_arrays_per_pair (int8_array [[100%Z]; [3%Z]])
                (int8_array [[100%Z]; [4%Z]]) 1 [3] [4] eq_refl eq_refl)
      as (_ & _ & H & _).
    exact H.
Defined.

End Quantized_dot.

(** ** The empty dataset *)

Section Empty_dataset.

Local Open Scope list_scope.

Lemma check_paired_arrays_no_samples (X Y : array) :
  n_samples X = 0%nat ->
  check_paired_arrays X Y =
  Raise (ValueError "Found array with 0 sample(s) while a minimum of 1 is required by check_pairwise_arrays.").
Proof. intros H. unfold check_paired_arrays. rewrite H. reflexivity. Qed.

Lemma embeddings_no_sentences (model : Model) (self : Evaluator) :
  (forall (q : Precision) (norm : bool),
     encode model [] (batch_size self) (show_progress_bar self) q norm = []) ->
  n_samples (embeddings model self []) = 0%nat.
Proof.
  intros H. unfold embeddings.
  destruct (precision self) as [q|]; rewrite H; [|reflexivity].
  destruct q; reflexivity.
Qed.

(** C10, the part that fails: on the empty dataset the call does not
    complete, so it returns no value at all, NaN or other. *)
Lemma empty_dataset_call_returns_nothing :
  ~ exists r : R,
      fst (call_checked unit_model None (-1) (-1)
             {| this := empty_evaluator; files := ∅; logged := [] |}) = Ok r.
Proof.
  intros [r H]. rewrite call_checked_eq in H. cbv zeta in H.
  rewrite check_paired_arrays_no_samples in H by reflexivity.
  discriminate H.
Qed.

(** C10, amended: for the empty dataset construction succeeds with no
    validation error, and, with a model that returns no rows for no
    sentences, an evaluation call does not complete: the input validation
    of the first paired-distance function raises a [ValueError] (not the
    configuration error) before any MSE value is computed; only the
    announcement has been logged and no file is touched. *)
Theorem empty_dataset_construction_and_call (model : Model) (bs : nat)
    (sel : selector) (nm : string) (spb wcsv : bool) (p : option Precision)
    (output_path : option string) (epoch steps : Z) (w : World) :
  (forall (q : Precision) (norm : bool), encode model [] bs spb q norm = []) ->
  exists ev,
    init [] [] [] bs sel nm spb wcsv p = Ok ev
    /\ (this w = ev ->
        exists msg,
          call_checked model output_path epoch steps w =
            (Raise (ValueError msg),
             {| this := ev; files := files w;
                logged := logged w ++ [announcement ev epoch steps] |})
          /\ msg <> "Unknown main_similarity value"%string).
Proof.
  intros Henc. eexists. split; [reflexivity|].
  intros Hw. eexists. split.
  - rewrite call_checked_eq. cbv zeta. rewrite Hw.
    cbn [sentences1 sentences2].
    rewrite check_paired_arrays_no_samples; [reflexivity|].
    apply embeddings_no_sentences. exact Henc.
  - discriminate.
Qed.

Lemma empty_dataset_construction_and_call_witness :
  init [] [] [] 16 PyNone "" false true None = Ok empty_evaluator
  /\ exists msg,
       fst (call_checked unit_model (Some "out") 0 0
              {| this := empty_evaluator; files := ∅; logged := [] |})
       = Raise (ValueError msg).
Proof.
  split; [reflexivity|].
  destruct (empty_dataset_construction_and_call unit_model 16 PyNone "" false true
              None (Some "out") 0 0
              {| this := empty_evaluator; files := ∅; logged := [] |})
    as (ev & Hev & Hcall).
  - intros q norm. reflexivity.
  - injection Hev as <-. destruct (Hcall eq_refl) as (msg & H & _).
    exists msg. rewrite H. reflexivity.
Defined.

End Empty_dataset.
